(** * Voice recognition service: feature extraction, enrollment,
      verification and voice-activity check

    A shallow embedding of [backend/voice_recognition_service.py].

    Conventions of the embedding.
    - A Python [str] is a [string]; a character whose code is 128 or more
      stands for a non-ASCII code point.
    - A [bytes] object and a [uint8] numpy array are lists of [Z] in
      the range 0..255.
    - A Python or numpy float is a real number ([R]): rounding, NaN and the
      infinities are not represented.  Comparisons on floats are the
      decidable comparisons of [R].  The bin a byte falls into depends on
      the rounding of the bin edges: it is computed in binary64 ([F64],
      the kernel's primitive floats), as numpy does, and the counts enter
      the feature vector as real numbers.
    - A raised exception is a value of [exn]; a function that may raise
      returns a [result].  [try ... except Exception as e] is a match on
      that result.
    - [base64], [numpy] and [json] are libraries: [base64.b64decode] is
      modelled after CPython's [binascii.a2b_base64], the numpy reductions
      after their documented meaning in exact arithmetic, [np.histogram]
      after numpy's own steps on a [uint8] array, and the JSON codec and
      the encryption collaborator are parameters of a section. *)

From Stdlib Require Import ZArith Reals String Ascii List.
From Stdlib Require Import Lia Psatz Bool DecimalString Decimal.
From Stdlib Require PrimFloat FloatOps SpecFloat Uint63 FloatAxioms.
Import ListNotations.

(** ** Exceptions and results *)

Inductive exn : Type :=
| ValueError (msg : string)
| BinasciiError (msg : string)
| IndexError (msg : string)
| FloatingPointError (msg : string)
| CollaboratorError (cls msg : string).

(** [str(e)] *)
Definition str_exn (e : exn) : string :=
  match e with
  | ValueError m => m
  | BinasciiError m => m
  | IndexError m => m
  | FloatingPointError m => m
  | CollaboratorError _ m => m
  end.

Inductive result (A : Type) : Type :=
| Ok (a : A)
| Raise (e : exn).
Arguments Ok {A} a.
Arguments Raise {A} e.

Definition bind {A B : Type} (m : result A) (k : A -> result B) : result B :=
  match m with
  | Ok a => k a
  | Raise e => Raise e
  end.

Declare Scope py_scope.
Delimit Scope py_scope with py.
Notation "x <- m ;; k" := (bind m (fun x => k))
  (at level 61, m at next level, right associativity) : py_scope.

(** [try: body  except Exception as e: handler e] *)
Definition try_except {A : Type} (body : result A) (handler : exn -> result A)
  : result A :=
  match body with
  | Ok a => Ok a
  | Raise e => handler e
  end.

(** ** Strings *)

Module Str.

Definition comma : ascii := ","%char.

(** [sep in s] for a one-character [sep] *)
Fixpoint contains (sep : ascii) (s : string) : bool :=
  match s with
  | EmptyString => false
  | String c r => Ascii.eqb c sep || contains sep r
  end.

(** [s.split(sep)] for a one-character [sep] *)
Fixpoint split (sep : ascii) (s : string) : list string :=
  match s with
  | EmptyString => [EmptyString]
  | String c r =>
      if Ascii.eqb c sep then EmptyString :: split sep r
      else match split sep r with
           | [] => [String c EmptyString]
           | h :: t => String c h :: t
           end
  end.

(** [%zd] *)
Definition of_nat (n : nat) : string :=
  NilZero.string_of_uint (Nat.to_uint n).

(** [cause] occurs inside [msg] *)
Definition embeds (msg cause : string) : Prop :=
  exists pre post : string, msg = (pre ++ cause ++ post)%string.

End Str.

(** [xs[i]] on a Python list, raising [IndexError] out of range *)
Definition list_index {A : Type} (xs : list A) (i : nat) : result A :=
  match nth_error xs i with
  | Some x => Ok x
  | None => Raise (IndexError "list index out of range")
  end.

(** Lines 31-33 and 142-144: remove a data-URL prefix if present. *)
Definition strip_data_url_prefix (audio_base64 : string) : result string :=
  if Str.contains Str.comma audio_base64
  then list_index (Str.split Str.comma audio_base64) 1
  else Ok audio_base64.

(** ** base64.b64decode *)

Module Base64.

Local Open Scope Z_scope.

Definition BASE64_PAD : ascii := "="%char.

(** [table_a2b_base64]: the 6-bit value of an alphabet character, 64 for
    every other character. *)
Definition table_a2b_base64 (c : ascii) : Z :=
  let n := Z.of_N (N_of_ascii c) in
  if (65 <=? n) && (n <=? 90) then n - 65
  else if (97 <=? n) && (n <=? 122) then n - 71
  else if (48 <=? n) && (n <=? 57) then n + 4
  else if n =? 43 then 62
  else if n =? 47 then 63
  else 64.

Record state : Type := mkState {
  quad_pos : Z;
  leftchar : Z;
  pads : Z;
  bin_data : list Z
}.

Inductive loop_exit : Type :=
| Done (out : list Z)          (* [goto done] on a complete pad sequence *)
| Fallthrough (st : state).    (* the input is exhausted *)

(** The decoding loop of [binascii.a2b_base64] with [strict_mode] off. *)
Fixpoint loop (ascii_data : string) (st : state) : loop_exit :=
  match ascii_data with
  | EmptyString => Fallthrough st
  | String c rest =>
      if Ascii.eqb c BASE64_PAD then
        if 2 <=? quad_pos st then
          let pads' := pads st + 1 in
          if 4 <=? quad_pos st + pads' then Done (bin_data st)
          else loop rest (mkState (quad_pos st) (leftchar st) pads' (bin_data st))
        else loop rest st
      else
        let this_ch := table_a2b_base64 c in
        if 64 <=? this_ch then loop rest st
        else
          let out := bin_data st in
          let lc := leftchar st in
          if quad_pos st =? 0 then
            loop rest (mkState 1 this_ch 0 out)
          else if quad_pos st =? 1 then
            loop rest (mkState 2 (Z.land this_ch 15) 0
                         (out ++ [Z.lor (Z.shiftl lc 2) (Z.shiftr this_ch 4)])%list)
          else if quad_pos st =? 2 then
            loop rest (mkState 3 (Z.land this_ch 3) 0
                         (out ++ [Z.lor (Z.shiftl lc 4) (Z.shiftr this_ch 2)])%list)
          else
            loop rest (mkState 0 0 0
                         (out ++ [Z.lor (Z.shiftl lc 6) this_ch])%list)
  end.

Definition init : state := mkState 0 0 0 [].

Definition a2b_base64 (ascii_data : string) : result (list Z) :=
  match loop ascii_data init with
  | Done out => Ok out
  | Fallthrough st =>
      if quad_pos st =? 0 then Ok (bin_data st)
      else if quad_pos st =? 1 then
        Raise (BinasciiError
                 ("Invalid base64-encoded string: number of data characters ("
                    ++ Str.of_nat (length (bin_data st) / 3 * 4 + 1)%nat
                    ++ ") cannot be 1 more than a multiple of 4")%string)
      else Raise (BinasciiError "Incorrect padding")
  end.

(** [s.encode('ascii')] succeeds *)
Fixpoint is_ascii (s : string) : bool :=
  match s with
  | EmptyString => true
  | String c r => (N_of_ascii c <? 128)%N && is_ascii r
  end.

Definition b64decode (s : string) : result (list Z) :=
  if is_ascii s then a2b_base64 s
  else Raise (ValueError "string argument should contain only ASCII characters").

End Base64.

(** The buffer both entry points work on: prefix stripped, then decoded. *)
Definition decode_audio (audio_base64 : string) : result (list Z) :=
  (payload <- strip_data_url_prefix audio_base64 ;;
   Base64.b64decode payload)%py.


(** ** Floats *)

Module Float.

Local Open Scope R_scope.

Definition eqb (a b : R) : bool := if Req_dec_T a b then true else false.
Definition geb (a b : R) : bool := if Rge_dec a b then true else false.
Definition gtb (a b : R) : bool := if Rgt_dec a b then true else false.
Definition ltb (a b : R) : bool := if Rlt_dec a b then true else false.

(** The builtin [min(a, b)]: [b] when [b < a], otherwise [a]. *)
Definition py_min (a b : R) : R := if ltb b a then b else a.

(** The builtin [max(a, b)]: [b] when [b > a], otherwise [a]. *)
Definition py_max (a b : R) : R := if gtb b a then b else a.

Definition of_nat (n : nat) : R := IZR (Z.of_nat n).

End Float.

(** ** Binary64 numbers *)

Module F64.

Local Open Scope Z_scope.

(** The float of an integer (exact below 2^53). *)
Definition of_Z (z : Z) : PrimFloat.float :=
  if z <? 0 then PrimFloat.opp (PrimFloat.of_uint63 (Uint63.of_Z (- z)))
  else PrimFloat.of_uint63 (Uint63.of_Z z).

Definition of_nat (n : nat) : PrimFloat.float := of_Z (Z.of_nat n).

(** [0.5] *)
Definition half : PrimFloat.float := PrimFloat.div (of_Z 1) (of_Z 2).

(** [x.astype(np.intp)] on a finite float [(-1)^s * m * 2^e]: the
    fractional part is dropped.  (NaN and the infinities do not occur
    where the histogram converts.) *)
Definition to_Z (f : PrimFloat.float) : Z :=
  match FloatOps.Prim2SF f with
  | SpecFloat.S754_finite s m e =>
      let magnitude := if 0 <=? e then Z.pos m * 2 ^ e else Z.pos m / 2 ^ (- e) in
      if s then - magnitude else magnitude
  | _ => 0
  end.

End F64.

(** ** numpy *)

Module Np.

Local Open Scope R_scope.

(** [np.frombuffer(b, dtype=np.uint8)] *)
Definition frombuffer (b : list Z) : list Z := b.

(** [a.astype(float)] *)
Definition astype_float (a : list Z) : list R := map IZR a.

(** [np.sum] of a float array *)
Definition sum (xs : list R) : R := fold_right Rplus 0 xs.

(** [np.mean]: the sum accumulated in floats, over the element count. *)
Definition mean (a : list Z) : R :=
  sum (astype_float a) / Float.of_nat (length a).

(** [np.std]: square root of the mean squared deviation from the mean. *)
Definition std (a : list Z) : R :=
  let m := mean a in
  sqrt (sum (map (fun x => (IZR x - m) * (IZR x - m)) a)
        / Float.of_nat (length a)).

(** [np.max]; an empty array has no maximum. *)
Definition max (a : list Z) : result Z :=
  match a with
  | [] => Raise (ValueError
      "zero-size array to reduction operation maximum which has no identity")
  | x :: r => Ok (fold_left Z.max r x)
  end.

(** [np.min] *)
Definition min (a : list Z) : result Z :=
  match a with
  | [] => Raise (ValueError
      "zero-size array to reduction operation minimum which has no identity")
  | x :: r => Ok (fold_left Z.min r x)
  end.

Fixpoint insert (x : Z) (l : list Z) : list Z :=
  match l with
  | [] => [x]
  | y :: r => if (x <=? y)%Z then x :: l else y :: insert x r
  end.

Definition sort (a : list Z) : list Z := fold_right insert [] a.

(** [np.median]: the middle element of the sorted array, or the mean of the
    two middle elements.  (numpy gives nan on an empty array; the
    extractor never gets there, [max] has raised before.) *)
Definition median (a : list Z) : R :=
  let s := sort a in
  let n := length a in
  if Nat.even n
  then (IZR (nth (n / 2 - 1) s 0%Z) + IZR (nth (n / 2) s 0%Z)) / 2
  else IZR (nth (n / 2) s 0%Z).

(** [y[-1] = x] *)
Definition set_last {A : Type} (y : list A) (x : A) : list A :=
  match y with
  | [] => []
  | _ :: _ => removelast y ++ [x]
  end.

(** [np.linspace(start, stop, num)] for [num > 1], in binary64 and in
    numpy's order of operations: [arange(0, num) * step + start] with
    [step = (stop - start) / (num - 1)] (or, if that step is zero,
    [arange(0, num) / (num - 1) * (stop - start) + start]), and the last
    point set to [stop]. *)
Definition linspace (start stop : PrimFloat.float) (num : nat)
  : list PrimFloat.float :=
  let div := (num - 1)%nat in
  let delta := PrimFloat.sub stop start in
  let y := map F64.of_nat (seq 0 num) in
  let step := PrimFloat.div delta (F64.of_nat div) in
  let y :=
    if PrimFloat.eqb step (F64.of_Z 0)
    then map (fun yi => PrimFloat.mul (PrimFloat.div yi (F64.of_nat div)) delta) y
    else map (fun yi => PrimFloat.mul yi step) y in
  let y := map (fun yi => PrimFloat.add yi start) y in
  set_last y stop.

(** The range [np.histogram] bins over: [(a.min(), a.max())], widened by a
    half on both sides when the two coincide, and [(0, 1)] for an empty
    array.  (The minimum and maximum of a [uint8] array are exact as
    floats.) *)
Definition outer_edges (a : list Z) : PrimFloat.float * PrimFloat.float :=
  match a with
  | [] => (F64.of_Z 0, F64.of_Z 1)
  | x :: r =>
      let first_edge := fold_left Z.min r x in
      let last_edge := fold_left Z.max r x in
      if (first_edge =? last_edge)%Z
      then (PrimFloat.sub (F64.of_Z first_edge) F64.half,
            PrimFloat.add (F64.of_Z last_edge) F64.half)
      else (F64.of_Z first_edge, F64.of_Z last_edge)
  end.

(** [bin_edges[i]]; a negative [i] counts from the end. *)
Definition item (bin_edges : list PrimFloat.float) (i : Z) : PrimFloat.float :=
  nth (Z.to_nat (if (i <? 0)%Z then Z.of_nat (length bin_edges) + i else i)%Z)
      bin_edges PrimFloat.nan.

(** The bin of one value: the scaled position, cut to an integer, with the
    right end moved into the last bin, then corrected by one against the
    edges on either side. *)
Definition bin_index (first_edge last_edge : PrimFloat.float)
    (bin_edges : list PrimFloat.float) (n_equal_bins : nat) (v : Z) : Z :=
  let tmp_a := F64.of_Z v in
  let norm_numerator := F64.of_nat n_equal_bins in
  let norm_denom := PrimFloat.sub last_edge first_edge in
  let f_index :=
    PrimFloat.mul (PrimFloat.div (PrimFloat.sub tmp_a first_edge) norm_denom)
                  norm_numerator in
  let index := F64.to_Z f_index in
  let index :=
    if (index =? Z.of_nat n_equal_bins)%Z then (index - 1)%Z else index in
  let index :=
    if PrimFloat.ltb tmp_a (item bin_edges index) then (index - 1)%Z else index in
  let index :=
    if PrimFloat.leb (item bin_edges (index + 1)) tmp_a
       && negb (index =? Z.of_nat n_equal_bins - 1)%Z
    then (index + 1)%Z else index in
  index.

(** [np.histogram(a, bins=bins)[0]] for a [uint8] array: the values inside
    the range are kept, each gets its bin index, and [np.bincount] counts
    the indices.  (For a byte buffer every index is one of the bins, see
    [histogram_indices] below, so the count has [bins] entries.) *)
Definition histogram (a : list Z) (bins : nat) : list nat :=
  let '(first_edge, last_edge) := outer_edges a in
  let bin_edges := linspace first_edge last_edge (bins + 1) in
  let keep := filter (fun v => PrimFloat.leb first_edge (F64.of_Z v)
                               && PrimFloat.leb (F64.of_Z v) last_edge) a in
  let indices := map (bin_index first_edge last_edge bin_edges bins) keep in
  map (fun i => length (filter (Z.eqb (Z.of_nat i)) indices)) (seq 0 bins).

(** One coefficient of the discrete Fourier transform:
    [sum_m x[m] * exp(-2 pi i m k / n)], as real and imaginary part. *)
Definition fft_coeff (x : list R) (k : nat) : R * R :=
  let n := length x in
  let angle (m : nat) := 2 * PI * Float.of_nat m * Float.of_nat k / Float.of_nat n in
  (sum (map (fun '(m, xm) => xm * cos (angle m)) (combine (seq 0 n) x)),
   - sum (map (fun '(m, xm) => xm * sin (angle m)) (combine (seq 0 n) x))).

(** [np.fft.fft] *)
Definition fft (x : list R) : list (R * R) :=
  map (fft_coeff x) (seq 0 (length x)).

(** [np.abs] of a complex number *)
Definition abs (c : R * R) : R := sqrt (fst c * fst c + snd c * snd c).

(** [np.dot] of two one-dimensional arrays *)
Definition dot (a b : list R) : result R :=
  if Nat.eqb (length a) (length b)
  then Ok (sum (map (fun '(x, y) => x * y) (combine a b)))
  else Raise (ValueError
         ("shapes (" ++ Str.of_nat (length a) ++ ",) and ("
            ++ Str.of_nat (length b) ++ ",) not aligned: "
            ++ Str.of_nat (length a) ++ " (dim 0) != "
            ++ Str.of_nat (length b) ++ " (dim 0)")%string).

(** [np.linalg.norm] of a one-dimensional array *)
Definition norm (a : list R) : R := sqrt (sum (map (fun x => x * x) a)).

(** Float division.  A zero divisor gives inf or nan in numpy, which a
    real number cannot stand for: the model raises there, as numpy does
    under [np.errstate(divide='raise', invalid='raise')]. *)
Definition true_divide (a b : R) : result R :=
  if Float.eqb b 0
  then Raise (FloatingPointError "divide by zero encountered in scalar divide")
  else Ok (a / b).

End Np.

(** ** Feature extractor (lines 24-73) *)

Definition target_size : nat := 200.

(** Lines 48-52: mean, standard deviation, maximum, minimum, median. *)
Definition statistical_features (byte_array : list Z) : result (list R) :=
  (let features := [] in
   let features := features ++ [Np.mean byte_array] in
   let features := features ++ [Np.std byte_array] in
   mx <- Np.max byte_array ;;
   let features := features ++ [IZR mx] in
   mn <- Np.min byte_array ;;
   let features := features ++ [IZR mn] in
   let features := features ++ [Np.median byte_array] in
   Ok features)%py.

(** Lines 55-56: the counts of a 50-bin histogram, as floats. *)
Definition histogram_features (byte_array : list Z) : list R :=
  let hist := Np.histogram byte_array 50 in
  firstn 50 (map Float.of_nat hist).

(** Lines 59-62: the first 50 magnitudes of the transform of the first 512
    bytes, and nothing for a buffer of 512 bytes or fewer. *)
Definition fft_features (byte_array : list Z) : list R :=
  if (512 <? length byte_array)%nat then
    let fft := Np.fft (Np.astype_float (firstn 512 byte_array)) in
    let fft_magnitude := firstn 50 (map Np.abs fft) in
    fft_magnitude
  else [].

(** Lines 65-69: pad with 0.0 or truncate to [target_size]. *)
Definition pad_or_truncate (features : list R) : list R :=
  if (length features <? target_size)%nat
  then features ++ repeat 0%R (target_size - length features)
  else firstn target_size features.

(** The features before padding. *)
Definition raw_features (byte_array : list Z) : result (list R) :=
  (features <- statistical_features byte_array ;;
   let features := features ++ histogram_features byte_array in
   let features := features ++ fft_features byte_array in
   Ok features)%py.

(** The body of the [try] block. *)
Definition extract_body (audio_base64 : string) : result (list R) :=
  (audio_base64 <- strip_data_url_prefix audio_base64 ;;
   audio_bytes <- Base64.b64decode audio_base64 ;;
   let byte_array := Np.frombuffer audio_bytes in
   features <- raw_features byte_array ;;
   Ok (pad_or_truncate features))%py.

Definition extract_audio_features (audio_base64 : string) : result (list R) :=
  try_except (extract_body audio_base64)
    (fun e => Raise (ValueError
       ("Audio feature extraction failed: " ++ str_exn e)%string)).

(** ** Voice-activity check (lines 136-175) *)

Record detect_result : Type := mkDetect {
  voice_detected : bool;
  energy : option R;          (* [None]: the record has no "energy" key *)
  message : string
}.

Definition energy_threshold : R := 1000000%R.

Definition detect_body (audio_base64 : string) : result detect_result :=
  (audio_base64 <- strip_data_url_prefix audio_base64 ;;
   audio_bytes <- Base64.b64decode audio_base64 ;;
   let byte_array := Np.frombuffer audio_bytes in
   if (length byte_array <? 1000)%nat then
     Ok (mkDetect false None "Audio sample too short")
   else
     let energy :=
       Np.sum (map (fun x => (x * x)%R) (Np.astype_float byte_array)) in
     let voice_detected := Float.gtb energy energy_threshold in
     Ok (mkDetect voice_detected (Some energy)
           (if voice_detected then "Voice detected"
            else "No voice detected or audio too quiet")))%py.

Definition detect_voice_in_audio (audio_base64 : string)
  : result detect_result :=
  try_except (detect_body audio_base64)
    (fun e => Ok (mkDetect false None ("Error: " ++ str_exn e)%string)).

(** ** Enrollment and verification (lines 75-134) *)

Record verify_result : Type := mkVerify {
  success : bool;
  confidence : R;
  similarity : R;
  threshold : R
}.

Definition default_tolerance : R := (65 / 100)%R.

(** Lines 112-132, from the two arrays on.  The arithmetic is that of the
    real numbers: the similarity the code computes in binary64 is this
    quotient up to rounding (for two proportional vectors it can come out
    one unit in the last place above 1), and the infinities and NaN it
    gets after an overflow have no counterpart here. *)
Definition compare_features (new_features_array stored_features_array : list R)
    (tolerance : R) : result verify_result :=
  (dot_product <- Np.dot new_features_array stored_features_array ;;
   let norm_a := Np.norm new_features_array in
   let norm_b := Np.norm stored_features_array in
   similarity <-
     (if Float.eqb norm_a 0 || Float.eqb norm_b 0 then Ok 0%R
      else Np.true_divide dot_product (norm_a * norm_b)) ;;
   let is_match := Float.geb similarity (1 - tolerance) in
   let confidence := Float.py_max 0 (Float.py_min 100 (similarity * 100)) in
   Ok (mkVerify is_match confidence similarity (1 - tolerance)))%py%R.

Section Service.

(** The encryption collaborator ([face_recognition_service]). *)
Variable encrypt_data : string -> result string.
Variable decrypt_data : string -> result string.

(** [json.dumps] of a list of floats, and [json.loads] followed by
    [np.array] for a text that holds a flat array of numbers; [Raise]
    for a text that does not parse.  A text that parses to another JSON
    value (a single number, on which [np.dot] broadcasts, or a nested
    array) has no counterpart here: what is stated of [verify_voice] is
    stated of stored flat arrays. *)
Variable json_dumps : list R -> string.
Variable json_loads : string -> result (list R).

Definition enroll_body (audio_base64 : string) : result string :=
  (voice_features <- extract_audio_features audio_base64 ;;
   let features_json := json_dumps voice_features in
   encrypted_features <- encrypt_data features_json ;;
   Ok encrypted_features)%py.

Definition enroll_voice (audio_base64 : string) : result string :=
  try_except (enroll_body audio_base64)
    (fun e => Raise (ValueError
       ("Voice enrollment failed: " ++ str_exn e)%string)).

Definition verify_body (audio_base64 stored_encrypted_features : string)
    (tolerance : R) : result verify_result :=
  (new_features <- extract_audio_features audio_base64 ;;
   decrypted_json <- decrypt_data stored_encrypted_features ;;
   stored_features <- json_loads decrypted_json ;;
   compare_features new_features stored_features tolerance)%py.

Definition verify_voice (audio_base64 stored_encrypted_features : string)
    (tolerance : R) : result verify_result :=
  try_except (verify_body audio_base64 stored_encrypted_features tolerance)
    (fun e => Raise (ValueError
       ("Voice verification failed: " ++ str_exn e)%string)).

End Service.

(** ** Collaborators for the examples *)

(** A cipher that leaves the text as it is. *)
Definition plain_cipher (data : string) : result string := Ok data.

(** A cipher whose decryption rejects every token (Fernet's [InvalidToken]
    has an empty message). *)
Definition rejecting_cipher (_ : string) : result string :=
  Raise (CollaboratorError "InvalidToken" "").

(** A JSON codec for the feature vector of one audio sample: every vector
    is written as the same text, which reads back as the features of
    [audio]. *)
Definition dumps_fixed (_ : list R) : string := "features"%string.

Definition loads_features_of (audio : string) (_ : string) : result (list R) :=
  extract_audio_features audio.

(** A stored text that reads back as the opposite of the features of
    [audio]. *)
Definition loads_negated_features_of (audio : string) (_ : string)
  : result (list R) :=
  (v <- extract_audio_features audio ;; Ok (map Ropp v))%py.

(** A stored text that reads back as 200 zeros. *)
Definition loads_zeros (_ : string) : result (list R) :=
  Ok (repeat 0%R target_size).

(** ** Quantities the statements below speak of *)

(** The squared Euclidean norm: [np.linalg.norm(a)] is its square root. *)
Definition sum_squares (a : list R) : R := Np.sum (map (fun x => (x * x)%R) a).

(** The value of [dot_product] when the shapes agree. *)
Definition dot_value (a b : list R) : R :=
  Np.sum (map (fun '(x, y) => (x * y)%R) (combine a b)).

(** A value of type [uint8]. *)
Definition is_uint8 (b : Z) : Prop := (0 <= b < 256)%Z.

(** What the decoding loop keeps true of its state: the bits carried over
    from the previous character fit the room left in the next byte, and
    everything written so far is a byte. *)
Definition decoder_invariant (st : Base64.state) : Prop :=
  ((Base64.quad_pos st = 0 /\ 0 <= Base64.leftchar st)
   \/ (Base64.quad_pos st = 1 /\ 0 <= Base64.leftchar st < 64)
   \/ (Base64.quad_pos st = 2 /\ 0 <= Base64.leftchar st < 16)
   \/ (Base64.quad_pos st = 3 /\ 0 <= Base64.leftchar st < 4))%Z
  /\ Forall is_uint8 (Base64.bin_data st).

(** ** Quantities of the further properties *)

(** The sum of the squared bytes, in integers. *)
Definition byte_energy (bytes : list Z) : Z :=
  fold_right (fun b acc => (b * b + acc)%Z) 0%Z bytes.

(** [s * n] on strings *)
Fixpoint str_repeat (s : string) (n : nat) : string :=
  match n with
  | O => EmptyString
  | S k => (s ++ str_repeat s k)%string
  end.

(** A JSON codec for the feature vectors of two samples, "AAAA" (three
    zero bytes, maximum 0) and "AQID": a vector whose maximum entry is 0 is
    written "silent", any other "features". *)
Definition dumps_two_samples (v : list R) : string :=
  match nth_error v 2 with
  | Some mx => if Float.eqb mx 0 then "silent"%string else "features"%string
  | None => "features"%string
  end.

Definition loads_two_samples (text : string) : result (list R) :=
  if String.eqb text "silent" then extract_audio_features "AAAA"
  else extract_audio_features "AQID".

(** ** Facts of binary64 arithmetic on bytes, as decidable tables *)

Definition byte_values : list Z := map Z.of_nat (seq 0 256).

(** [p x y] for all bytes [y <= x]. *)
Definition for_all_byte_pairs (p : Z -> Z -> bool) : bool :=
  forallb (fun x => forallb (fun y => if (x <? y)%Z then true else p x y) byte_values)
          byte_values.

(** The float difference of two bytes is the float of their difference. *)
Definition subtraction_is_exact (x y : Z) : bool :=
  PrimFloat.Leibniz.eqb (PrimFloat.sub (F64.of_Z x) (F64.of_Z y)) (F64.of_Z (x - y)).

(** The floats of two bytes compare as the bytes do. *)
Definition order_is_kept (x y : Z) : bool :=
  PrimFloat.leb (F64.of_Z y) (F64.of_Z x)
  && negb (PrimFloat.ltb (F64.of_Z x) (F64.of_Z y)).

(** The scaled position [a / d * 50], cut to an integer, is between 0 and
    50. *)
Definition first_index_in_range (d a : Z) : bool :=
  let index :=
    F64.to_Z (PrimFloat.mul (PrimFloat.div (F64.of_Z a) (F64.of_Z d))
                            (F64.of_nat 50)) in
  (0 <=? index)%Z && (index <=? 50)%Z.

(** The first of the 51 edges between two bytes is the lower byte. *)
Definition first_edge_is_minimum (hi lo : Z) : bool :=
  PrimFloat.Leibniz.eqb
    (Np.item (Np.linspace (F64.of_Z lo) (F64.of_Z hi) 51) 0) (F64.of_Z lo).

(** The single value [m] of a constant buffer is inside the widened range
    and gets bin 25. *)
Definition constant_buffer_bin (m : Z) : bool :=
  let first_edge := PrimFloat.sub (F64.of_Z m) F64.half in
  let last_edge := PrimFloat.add (F64.of_Z m) F64.half in
  PrimFloat.leb first_edge (F64.of_Z m)
  && PrimFloat.leb (F64.of_Z m) last_edge
  && (Np.bin_index first_edge last_edge (Np.linspace first_edge last_edge 51) 50 m
      =? 25)%Z.

(** * Properties *)

(** ** The result monad *)

Lemma bind_ok {A B : Type} (m : result A) (k : A -> result B) (b : B) :
  bind m k = Ok b -> exists a, m = Ok a /\ k a = Ok b.
Proof.
  destruct m as [a | e]; simpl; intros H.
  - exists a. split; [reflexivity | exact H].
  - discriminate H.
Qed.

Lemma try_except_ok {A : Type} (body : result A) (h : exn -> result A) (a : A) :
  body = Ok a -> try_except body h = Ok a.
Proof. intros ->. reflexivity. Qed.

Lemma try_except_raise {A : Type} (body : result A) (h : exn -> result A) (e : exn) :
  body = Raise e -> try_except body h = h e.
Proof. intros ->. reflexivity. Qed.

Lemma try_except_reraise_inv {A : Type} (body : result A) (f : exn -> exn) (a : A) :
  try_except body (fun e => Raise (f e)) = Ok a -> body = Ok a.
Proof. destruct body; simpl; intros H; [exact H | discriminate H]. Qed.

(** ** Splitting on commas *)

Lemma split_no_sep (sep : ascii) (s : string) :
  Str.contains sep s = false -> Str.split sep s = [s].
Proof.
  induction s as [| c r IH]; simpl; intros H.
  - reflexivity.
  - apply orb_false_iff in H. destruct H as [Hc Hr].
    rewrite Hc, (IH Hr). reflexivity.
Qed.

Lemma split_app_sep (sep : ascii) (pre rest : string) :
  Str.contains sep pre = false ->
  Str.split sep (pre ++ String sep rest) = pre :: Str.split sep rest.
Proof.
  induction pre as [| c r IH]; simpl; intros H.
  - rewrite Ascii.eqb_refl. reflexivity.
  - apply orb_false_iff in H. destruct H as [Hc Hr].
    rewrite Hc, (IH Hr). reflexivity.
Qed.

Lemma contains_app_sep (sep : ascii) (pre rest : string) :
  Str.contains sep (pre ++ String sep rest) = true.
Proof.
  induction pre as [| c r IH]; simpl.
  - rewrite Ascii.eqb_refl. reflexivity.
  - rewrite IH. apply orb_true_r.
Qed.

Lemma split_two (sep : ascii) (s : string) :
  Str.contains sep s = true ->
  exists a b t, Str.split sep s = a :: b :: t.
Proof.
  induction s as [| c r IH]; simpl; intros H.
  - discriminate H.
  - destruct (Ascii.eqb c sep) eqn:Hc.
    + destruct r as [| c' r'].
      * exists EmptyString, EmptyString, []. reflexivity.
      * destruct (Str.split sep (String c' r')) as [| h t] eqn:Hs.
        -- simpl in Hs. destruct (Ascii.eqb c' sep); [discriminate Hs |].
           destruct (Str.split sep r'); discriminate Hs.
        -- exists EmptyString, h, t. reflexivity.
    + simpl in H. destruct (IH H) as (a & b & t & ->).
      exists (String c a), b, t. reflexivity.
Qed.

(** The index [1] of line 33 is always in range: the stripping step does not
    raise. *)
Lemma strip_total (s : string) : exists p, strip_data_url_prefix s = Ok p.
Proof.
  unfold strip_data_url_prefix.
  destruct (Str.contains Str.comma s) eqn:H.
  - destruct (split_two _ _ H) as (a & b & t & ->). exists b. reflexivity.
  - exists s. reflexivity.
Qed.

Lemma strip_no_comma (p : string) :
  Str.contains Str.comma p = false -> strip_data_url_prefix p = Ok p.
Proof. unfold strip_data_url_prefix. intros ->. reflexivity. Qed.

Lemma strip_prefixed (prefix p : string) :
  Str.contains Str.comma prefix = false ->
  Str.contains Str.comma p = false ->
  strip_data_url_prefix (prefix ++ "," ++ p) = Ok p.
Proof.
  intros Hpre Hp. unfold strip_data_url_prefix.
  change (prefix ++ "," ++ p)%string with (prefix ++ String Str.comma p)%string.
  rewrite contains_app_sep, (split_app_sep _ _ _ Hpre), (split_no_sep _ _ Hp).
  reflexivity.
Qed.

(** ** The decoder yields bytes *)

Lemma table_a2b_base64_range (c : ascii) :
  (0 <= Base64.table_a2b_base64 c <= 64)%Z.
Proof.
  unfold Base64.table_a2b_base64.
  pose proof (N2Z.is_nonneg (N_of_ascii c)) as Hn.
  set (n := Z.of_N (N_of_ascii c)) in *.
  repeat match goal with
         | |- context [if ?b then _ else _] =>
             let E := fresh "E" in destruct b eqn:E
         end;
    rewrite ?andb_true_iff, ?Z.leb_le, ?Z.eqb_eq in *; lia.
Qed.

Lemma lor_is_uint8 (a b : Z) :
  (0 <= a)%Z -> (0 <= b)%Z -> (a + b < 256)%Z -> is_uint8 (Z.lor a b).
Proof.
  intros Ha Hb Hab. unfold is_uint8.
  pose proof (Z.add_lor_land a b) as Hsum.
  assert (0 <= Z.land a b)%Z by (apply Z.land_nonneg; left; exact Ha).
  assert (0 <= Z.lor a b)%Z by (apply Z.lor_nonneg; split; assumption).
  lia.
Qed.

Lemma land_ones_range (a n : Z) :
  (0 <= n)%Z -> (0 <= Z.land a (Z.ones n) < 2 ^ n)%Z.
Proof.
  intros Hn. rewrite Z.land_ones by exact Hn.
  apply Z.mod_pos_bound. apply Z.pow_pos_nonneg; lia.
Qed.

Lemma loop_keeps_invariant (ascii_data : string) (st : Base64.state) :
  decoder_invariant st ->
  match Base64.loop ascii_data st with
  | Base64.Done out => Forall is_uint8 out
  | Base64.Fallthrough st' => decoder_invariant st'
  end.
Proof.
  revert st. induction ascii_data as [| c rest IH]; intros st Hinv.
  - exact Hinv.
  - cbn [Base64.loop].
    destruct (Ascii.eqb c Base64.BASE64_PAD).
    + destruct (2 <=? Base64.quad_pos st)%Z; [| apply IH; exact Hinv].
      destruct (4 <=? Base64.quad_pos st + (Base64.pads st + 1))%Z.
      * apply Hinv.
      * apply IH. exact Hinv.
    + pose proof (table_a2b_base64_range c) as Hc.
      destruct (Z.leb_spec 64 (Base64.table_a2b_base64 c)) as [Hbig | Hsmall];
        [apply IH; exact Hinv |].
      set (ch := Base64.table_a2b_base64 c) in *.
      destruct Hinv as (Hq & Hout).
      destruct (Z.eqb_spec (Base64.quad_pos st) 0) as [E0 | E0];
        [| destruct (Z.eqb_spec (Base64.quad_pos st) 1) as [E1 | E1];
           [| destruct (Z.eqb_spec (Base64.quad_pos st) 2) as [E2 | E2]]];
        apply IH; (split; [| cbn [Base64.bin_data]]).
      * right. left. cbn. lia.
      * exact Hout.
      * right. right. left. cbn.
        pose proof (land_ones_range ch 4 ltac:(lia)) as Hl.
        change (Z.ones 4) with 15%Z in Hl. lia.
      * apply Forall_app. split; [exact Hout |]. constructor; [| constructor].
        rewrite Z.shiftl_mul_pow2, Z.shiftr_div_pow2 by lia.
        assert (0 <= ch / 2 ^ 4 < 4)%Z
          by (split; [apply Z.div_pos | apply Z.div_lt_upper_bound]; lia).
        apply lor_is_uint8; lia.
      * right. right. right. cbn.
        pose proof (land_ones_range ch 2 ltac:(lia)) as Hl.
        change (Z.ones 2) with 3%Z in Hl. lia.
      * apply Forall_app. split; [exact Hout |]. constructor; [| constructor].
        rewrite Z.shiftl_mul_pow2, Z.shiftr_div_pow2 by lia.
        assert (0 <= ch / 2 ^ 2 < 16)%Z
          by (split; [apply Z.div_pos | apply Z.div_lt_upper_bound]; lia).
        apply lor_is_uint8; lia.
      * left. cbn. lia.
      * apply Forall_app. split; [exact Hout |]. constructor; [| constructor].
        rewrite Z.shiftl_mul_pow2 by lia.
        apply lor_is_uint8; lia.
Qed.

(** Every element of a decoded buffer is a [uint8] value. *)
Lemma b64decode_uint8 (s : string) (bytes : list Z) :
  Base64.b64decode s = Ok bytes -> Forall is_uint8 bytes.
Proof.
  unfold Base64.b64decode, Base64.a2b_base64.
  destruct (Base64.is_ascii s); [| discriminate].
  assert (Hinit : decoder_invariant Base64.init).
  { split; [left; cbn; lia | constructor]. }
  pose proof (loop_keeps_invariant s Base64.init Hinit) as H.
  destruct (Base64.loop s Base64.init) as [out | st].
  - intros E. injection E as <-. exact H.
  - destruct (Base64.quad_pos st =? 0)%Z.
    + intros E. injection E as <-. apply H.
    + destruct (Base64.quad_pos st =? 1)%Z; discriminate.
Qed.

Lemma decode_audio_uint8 (s : string) (bytes : list Z) :
  decode_audio s = Ok bytes -> Forall is_uint8 bytes.
Proof.
  unfold decode_audio. intros H. apply bind_ok in H.
  destruct H as (payload & _ & H). apply (b64decode_uint8 _ _ H).
Qed.

(** ** Shape of the feature vector *)

Lemma extract_body_decode (s : string) :
  extract_body s =
  bind (decode_audio s)
       (fun bytes => bind (raw_features bytes)
                          (fun f => Ok (pad_or_truncate f))).
Proof.
  unfold extract_body, decode_audio, Np.frombuffer.
  destruct (strip_data_url_prefix s); reflexivity.
Qed.

Lemma detect_body_decode (s : string) :
  detect_body s =
  bind (decode_audio s)
       (fun byte_array =>
          if (length byte_array <? 1000)%nat then
            Ok (mkDetect false None "Audio sample too short")
          else
            let energy :=
              Np.sum (map (fun x => (x * x)%R) (Np.astype_float byte_array)) in
            let voice_detected := Float.gtb energy energy_threshold in
            Ok (mkDetect voice_detected (Some energy)
                  (if voice_detected then "Voice detected"
                   else "No voice detected or audio too quiet"))).
Proof.
  unfold detect_body, decode_audio, Np.frombuffer.
  destruct (strip_data_url_prefix s); reflexivity.
Qed.

Lemma statistical_features_cons (x : Z) (r : list Z) :
  statistical_features (x :: r) =
  Ok [Np.mean (x :: r); Np.std (x :: r); IZR (fold_left Z.max r x);
      IZR (fold_left Z.min r x); Np.median (x :: r)].
Proof. reflexivity. Qed.

Lemma statistical_features_nil :
  statistical_features [] =
  Raise (ValueError
    "zero-size array to reduction operation maximum which has no identity").
Proof. reflexivity. Qed.

Lemma histogram_length (a : list Z) (bins : nat) :
  length (Np.histogram a bins) = bins.
Proof.
  unfold Np.histogram. destruct (Np.outer_edges a).
  rewrite length_map, length_seq. reflexivity.
Qed.

Lemma histogram_features_length (a : list Z) :
  length (histogram_features a) = 50%nat.
Proof.
  unfold histogram_features.
  rewrite length_firstn, length_map, histogram_length. reflexivity.
Qed.

Lemma fft_length (x : list R) : length (Np.fft x) = length x.
Proof. unfold Np.fft. rewrite length_map, length_seq. reflexivity. Qed.

Lemma fft_features_short (a : list Z) :
  (length a <= 512)%nat -> fft_features a = [].
Proof.
  intros H. unfold fft_features.
  destruct (Nat.ltb_spec 512 (length a)); [lia | reflexivity].
Qed.

Lemma fft_features_long (a : list Z) :
  (512 < length a)%nat -> length (fft_features a) = 50%nat.
Proof.
  intros H. unfold fft_features, Np.astype_float.
  destruct (Nat.ltb_spec 512 (length a)); [| lia].
  rewrite length_firstn, length_map, fft_length, length_map, length_firstn. lia.
Qed.

Lemma fft_features_length (a : list Z) : (length (fft_features a) <= 50)%nat.
Proof.
  destruct (Nat.le_gt_cases (length a) 512) as [H | H].
  - rewrite (fft_features_short a H). simpl. lia.
  - rewrite (fft_features_long a H). lia.
Qed.

Lemma pad_or_truncate_length (f : list R) :
  length (pad_or_truncate f) = target_size.
Proof.
  unfold pad_or_truncate.
  destruct (Nat.ltb_spec (length f) target_size).
  - rewrite length_app, repeat_length. lia.
  - rewrite length_firstn. lia.
Qed.

Lemma pad_short (f : list R) :
  (length f < target_size)%nat ->
  pad_or_truncate f = f ++ repeat 0%R (target_size - length f).
Proof.
  intros H. unfold pad_or_truncate.
  destruct (Nat.ltb_spec (length f) target_size); [reflexivity | lia].
Qed.

Lemma raw_features_cons (x : Z) (r : list Z) :
  raw_features (x :: r) =
  Ok ([Np.mean (x :: r); Np.std (x :: r); IZR (fold_left Z.max r x);
       IZR (fold_left Z.min r x); Np.median (x :: r)]
        ++ histogram_features (x :: r) ++ fft_features (x :: r)).
Proof.
  unfold raw_features. rewrite statistical_features_cons.
  cbv beta zeta iota delta [bind].
  rewrite <- app_assoc. reflexivity.
Qed.

Lemma raw_features_length (a : list Z) (f : list R) :
  raw_features a = Ok f ->
  length f = (55 + length (fft_features a))%nat.
Proof.
  destruct a as [| x r].
  - discriminate.
  - rewrite raw_features_cons. intros H. injection H as <-.
    cbn [length]. rewrite length_app, histogram_features_length. reflexivity.
Qed.

(** On a non-empty buffer the extractor returns the padded features. *)
Lemma extract_nonempty (s : string) (x : Z) (r : list Z) :
  decode_audio s = Ok (x :: r) ->
  exists f, raw_features (x :: r) = Ok f /\
            extract_audio_features s = Ok (pad_or_truncate f).
Proof.
  intros H. eexists. split; [apply raw_features_cons |].
  unfold extract_audio_features.
  rewrite extract_body_decode, H.
  cbv beta iota delta [bind].
  rewrite raw_features_cons. reflexivity.
Qed.

(** On an empty buffer [np.max] raises and the extractor wraps the error. *)
Lemma extract_empty (s : string) :
  decode_audio s = Ok [] ->
  extract_audio_features s =
  Raise (ValueError
    "Audio feature extraction failed: zero-size array to reduction operation maximum which has no identity").
Proof.
  intros H. unfold extract_audio_features.
  rewrite extract_body_decode, H. reflexivity.
Qed.

(** A returned vector comes from a decoded, non-empty buffer. *)
Lemma extract_ok_inv (s : string) (v : list R) :
  extract_audio_features s = Ok v ->
  exists bytes f, decode_audio s = Ok bytes /\ bytes <> [] /\
                  raw_features bytes = Ok f /\ v = pad_or_truncate f.
Proof.
  unfold extract_audio_features. intros H.
  apply try_except_reraise_inv in H.
  rewrite extract_body_decode in H.
  apply bind_ok in H. destruct H as (bytes & Hd & H).
  apply bind_ok in H. destruct H as (f & Hf & H).
  injection H as <-.
  exists bytes, f. repeat split; try assumption.
  intros ->. discriminate Hf.
Qed.

Lemma extract_length (s : string) (v : list R) :
  extract_audio_features s = Ok v -> length v = target_size.
Proof.
  intros H. destruct (extract_ok_inv _ _ H) as (bytes & f & _ & _ & _ & ->).
  apply pad_or_truncate_length.
Qed.

Lemma extract_decode_raise (s : string) (e : exn) :
  decode_audio s = Raise e ->
  extract_audio_features s =
  Raise (ValueError ("Audio feature extraction failed: " ++ str_exn e)).
Proof.
  intros H. unfold extract_audio_features.
  rewrite extract_body_decode, H. reflexivity.
Qed.

Lemma raw_features_short (a : list Z) (f : list R) :
  raw_features a = Ok f -> (length f < target_size)%nat.
Proof.
  intros H. rewrite (raw_features_length _ _ H).
  pose proof (fft_features_length a). unfold target_size. lia.
Qed.

(** The third feature is the maximum of the buffer. *)
Lemma extract_third_feature (s : string) (x : Z) (r : list Z) :
  decode_audio s = Ok (x :: r) ->
  exists v, extract_audio_features s = Ok v /\
            nth_error v 2 = Some (IZR (fold_left Z.max r x)).
Proof.
  intros H. destruct (extract_nonempty _ _ _ H) as (f & Hf & Hv).
  exists (pad_or_truncate f). split; [exact Hv |].
  rewrite (pad_short _ (raw_features_short _ _ Hf)).
  rewrite raw_features_cons in Hf. injection Hf as <-. reflexivity.
Qed.

(** Both entry points look at their argument through the decoded buffer
    only. *)
Lemma same_buffer_same_results (s1 s2 : string) :
  decode_audio s1 = decode_audio s2 ->
  extract_audio_features s1 = extract_audio_features s2 /\
  detect_voice_in_audio s1 = detect_voice_in_audio s2.
Proof.
  intros H. unfold extract_audio_features, detect_voice_in_audio.
  rewrite !extract_body_decode, !detect_body_decode, H. split; reflexivity.
Qed.

(** On a buffer of 1000 bytes or more the energy is the sum of the squared
    bytes and is compared with the threshold. *)
Lemma detect_long_sample (s : string) (bytes : list Z) :
  decode_audio s = Ok bytes ->
  (1000 <= length bytes)%nat ->
  let e := sum_squares (Np.astype_float bytes) in
  detect_voice_in_audio s =
  Ok {| voice_detected := Float.gtb e energy_threshold;
        energy := Some e;
        message := if Float.gtb e energy_threshold then "Voice detected"
                   else "No voice detected or audio too quiet" |}.
Proof.
  intros Hd Hlen e. unfold detect_voice_in_audio.
  rewrite detect_body_decode, Hd. cbv beta iota delta [bind].
  destruct (Nat.ltb_spec (length bytes) 1000); [lia | reflexivity].
Qed.

Lemma sum_squares_constant (b : Z) (n : nat) :
  sum_squares (Np.astype_float (repeat b n)) = IZR (Z.of_nat n * (b * b)).
Proof.
  unfold sum_squares, Np.astype_float.
  induction n as [| n IH].
  - simpl. reflexivity.
  - cbn [repeat map Np.sum fold_right]. unfold Np.sum in IH. rewrite IH.
    rewrite <- mult_IZR, <- plus_IZR. f_equal. lia.
Qed.

(** ** The claims on the extractor and the voice-activity check *)

(** C1, as stated, fails on the empty payload: the empty string is valid
    base64 (it decodes to the empty buffer), and the extractor raises on
    it instead of returning 200 values. *)
Lemma extract_empty_payload_raises :
  decode_audio "" = Ok [] /\
  ~ (exists v, extract_audio_features "" = Ok v /\ length v = 200%nat).
Proof.
  split; [reflexivity |].
  intros (v & Hv & _).
  rewrite (extract_empty "" eq_refl) in Hv. discriminate Hv.
Qed.

(** C1 (amended): for every input whose prefix-stripped payload decodes to
    a non-empty byte buffer, [extract_audio_features] returns a list of
    exactly 200 values. *)
Theorem extract_returns_200_values (s : string) (bytes : list Z) :
  decode_audio s = Ok bytes ->
  bytes <> [] ->
  exists v, extract_audio_features s = Ok v /\ length v = 200%nat.
Proof.
  intros Hd Hne. destruct bytes as [| x r]; [contradiction |].
  destruct (extract_nonempty _ _ _ Hd) as (f & _ & Hv).
  exists (pad_or_truncate f). split; [exact Hv |].
  apply pad_or_truncate_length.
Qed.

Lemma extract_returns_200_values_witness :
  decode_audio "data:audio/wav;base64,AQID" = Ok [1; 2; 3]%Z /\
  exists v, extract_audio_features "data:audio/wav;base64,AQID" = Ok v /\
            length v = 200%nat.
Proof.
  split; [reflexivity |].
  apply (extract_returns_200_values "data:audio/wav;base64,AQID" [1; 2; 3]%Z).
  - reflexivity.
  - discriminate.
Defined.

(** C5: for every input whose decoded byte buffer has length at most 512, the
    FFT step is skipped (no FFT features are appended: the returned vector
    is the 55 statistics and histogram values followed by zeros), and the
    returned 200-element vector has positions 155 through 199 all exactly
    0.0.  A vector is returned whenever the buffer is not empty. *)
Theorem short_buffer_has_no_fft_features (s : string) (bytes : list Z) :
  decode_audio s = Ok bytes ->
  (length bytes <= 512)%nat ->
  fft_features bytes = [] /\
  (bytes <> [] -> exists v, extract_audio_features s = Ok v) /\
  forall v, extract_audio_features s = Ok v ->
    length v = 200%nat /\
    (exists stats, statistical_features bytes = Ok stats /\
       v = stats ++ histogram_features bytes ++ repeat 0%R 145) /\
    forall i, (155 <= i <= 199)%nat -> nth_error v i = Some 0%R.
Proof.
  intros Hd Hlen. split; [apply fft_features_short; exact Hlen |]. split.
  - intros Hne. destruct bytes as [| x r]; [contradiction |].
    destruct (extract_nonempty _ _ _ Hd) as (f & _ & Hv). eauto.
  - intros v Hv.
    destruct (extract_ok_inv _ _ Hv) as (bytes' & f & Hd' & Hne & Hf & ->).
    rewrite Hd in Hd'. injection Hd' as <-.
    split; [apply pad_or_truncate_length |].
    rewrite (pad_short _ (raw_features_short _ _ Hf)).
    pose proof (raw_features_length _ _ Hf) as Hl.
    rewrite (fft_features_short _ Hlen) in Hl. simpl in Hl.
    destruct bytes as [| x r]; [contradiction |].
    rewrite raw_features_cons in Hf. injection Hf as <-.
    rewrite (fft_features_short _ Hlen) in *. rewrite app_nil_r in *.
    rewrite Hl. change (target_size - 55)%nat with 145%nat.
    split.
    + eexists. split; [apply statistical_features_cons | reflexivity].
    + intros i Hi. rewrite nth_error_app2 by lia.
      apply nth_error_repeat. lia.
Qed.

Lemma short_buffer_has_no_fft_features_witness :
  fft_features [1; 2; 3]%Z = [] /\
  forall v, extract_audio_features "AQID" = Ok v ->
            nth_error v 155 = Some 0%R /\ nth_error v 199 = Some 0%R.
Proof.
  destruct (short_buffer_has_no_fft_features "AQID" [1; 2; 3]%Z)
    as (Hfft & _ & H).
  - reflexivity.
  - simpl. lia.
  - split; [exact Hfft |].
    intros v Hv. destruct (H v Hv) as (_ & _ & Hz).
    split; apply Hz; lia.
Defined.

(** C9: for every input whose decoded byte buffer has length strictly less
    than 1000, [detect_voice_in_audio] returns [voice_detected = false] with
    the exact message "Audio sample too short" and no energy value,
    whatever the buffer contains. *)
Theorem short_sample_is_rejected (s : string) (bytes : list Z) :
  decode_audio s = Ok bytes ->
  (length bytes < 1000)%nat ->
  detect_voice_in_audio s =
  Ok {| voice_detected := false;
        energy := None;
        message := "Audio sample too short" |}.
Proof.
  intros Hd Hlen. unfold detect_voice_in_audio.
  rewrite detect_body_decode, Hd. cbv beta iota delta [bind].
  destruct (Nat.ltb_spec (length bytes) 1000); [reflexivity | lia].
Qed.

Lemma short_sample_is_rejected_witness :
  decode_audio "data:audio/wav;base64,/////w==" = Ok [255; 255; 255; 255]%Z /\
  detect_voice_in_audio "data:audio/wav;base64,/////w==" =
  Ok {| voice_detected := false;
        energy := None;
        message := "Audio sample too short" |}.
Proof.
  split; [reflexivity |].
  apply (short_sample_is_rejected _ [255; 255; 255; 255]%Z).
  - reflexivity.
  - simpl. lia.
Defined.

(** C6, at a data URL whose media-type parameters hold a comma: the
    stripping step keeps the text between the first and the second comma,
    here "opus;base64", a piece of the prefix, in place of the payload; the
    decoder rejects it and the extractor raises, whereas the bare payload
    "AAAA" gives a vector of 200 values. *)
Theorem comma_in_prefix_is_decoded_as_payload :
  strip_data_url_prefix "data:video/webm;codecs=vp8,opus;base64,AAAA"
  = Ok "opus;base64"%string /\
  Base64.b64decode "opus;base64" = Raise (BinasciiError "Incorrect padding") /\
  extract_audio_features "data:video/webm;codecs=vp8,opus;base64,AAAA"
  = Raise (ValueError "Audio feature extraction failed: Incorrect padding") /\
  Base64.b64decode "AAAA" = Ok [0; 0; 0]%Z /\
  (exists v, extract_audio_features "AAAA" = Ok v /\ length v = 200%nat) /\
  extract_audio_features "data:video/webm;codecs=vp8,opus;base64,AAAA"
  <> extract_audio_features "AAAA".
Proof.
  pose proof (extract_decode_raise
                "data:video/webm;codecs=vp8,opus;base64,AAAA"
                (BinasciiError "Incorrect padding") eq_refl) as Hraise.
  destruct (extract_nonempty "AAAA" 0%Z [0; 0]%Z eq_refl) as (f & _ & Hv).
  split; [reflexivity |]. split; [reflexivity |]. split; [exact Hraise |].
  split; [reflexivity |]. split.
  - exists (pad_or_truncate f). split; [exact Hv | apply pad_or_truncate_length].
  - rewrite Hraise, Hv. discriminate.
Qed.

(** ** Floats and vectors *)

Lemma float_eqb_true (a b : R) : Float.eqb a b = true <-> a = b.
Proof.
  unfold Float.eqb. destruct (Req_dec_T a b); split; intros H;
    try reflexivity; try assumption; try discriminate; contradiction.
Qed.

Lemma float_eqb_false (a b : R) : Float.eqb a b = false <-> a <> b.
Proof.
  unfold Float.eqb. destruct (Req_dec_T a b); split; intros H;
    try reflexivity; try assumption; try discriminate; contradiction.
Qed.

Lemma float_geb_true (a b : R) : Float.geb a b = true <-> (a >= b)%R.
Proof.
  unfold Float.geb. destruct (Rge_dec a b); split; intros H;
    try reflexivity; try assumption; try discriminate; contradiction.
Qed.

Lemma clamp_spec (x : R) :
  Float.py_max 0 (Float.py_min 100 x) = Rmax 0 (Rmin 100 x).
Proof.
  unfold Float.py_max, Float.py_min, Float.gtb, Float.ltb, Rmax, Rmin.
  destruct (Rlt_dec x 100), (Rle_dec 100 x); try lra;
    match goal with
    | |- context [Rgt_dec ?a ?b] => destruct (Rgt_dec a b)
    end;
    match goal with
    | |- context [Rle_dec ?a ?b] => destruct (Rle_dec a b)
    end; lra.
Qed.

Lemma sum_squares_nonneg (a : list R) : (0 <= sum_squares a)%R.
Proof.
  unfold sum_squares. induction a as [| x r IH]; simpl.
  - lra.
  - pose proof (Rle_0_sqr x) as Hx. unfold Rsqr in Hx. lra.
Qed.

Lemma sum_squares_In (a : list R) (x : R) :
  In x a -> (x * x <= sum_squares a)%R.
Proof.
  induction a as [| y r IH]; simpl; intros H.
  - contradiction.
  - change (sum_squares (y :: r)) with (y * y + sum_squares r)%R.
    destruct H as [-> | H].
    + pose proof (sum_squares_nonneg r). lra.
    + specialize (IH H). pose proof (Rle_0_sqr y) as Hy. unfold Rsqr in Hy. lra.
Qed.

Lemma sum_squares_zeros (n : nat) : sum_squares (repeat 0%R n) = 0%R.
Proof.
  induction n as [| n IH].
  - reflexivity.
  - change (sum_squares (repeat 0%R (S n)))
      with (0 * 0 + sum_squares (repeat 0%R n))%R.
    rewrite IH. lra.
Qed.

Lemma norm_zeros (n : nat) : Np.norm (repeat 0%R n) = 0%R.
Proof.
  unfold Np.norm. fold (sum_squares (repeat 0%R n)).
  rewrite sum_squares_zeros. apply sqrt_0.
Qed.

Lemma norm_pos (a : list R) : (0 < sum_squares a)%R -> (0 < Np.norm a)%R.
Proof. intros H. apply sqrt_lt_R0. exact H. Qed.

Lemma dot_self (a : list R) : Np.dot a a = Ok (sum_squares a).
Proof.
  unfold Np.dot. rewrite Nat.eqb_refl. f_equal. unfold sum_squares.
  induction a as [| x r IH]; simpl; [reflexivity |]. rewrite IH. reflexivity.
Qed.

(** The comparison returns exactly when the two arrays have one length; the
    division is reached with a non-zero divisor only. *)
Lemma compare_features_ok (a b : list R) :
  length a = length b ->
  exists sim,
    (forall t, compare_features a b t =
               Ok (mkVerify (Float.geb sim (1 - t))
                     (Float.py_max 0 (Float.py_min 100 (sim * 100)))
                     sim (1 - t)%R)) /\
    (Np.norm a = 0%R \/ Np.norm b = 0%R -> sim = 0%R) /\
    (Np.norm a <> 0%R -> Np.norm b <> 0%R ->
     sim = (dot_value a b / (Np.norm a * Np.norm b))%R).
Proof.
  intros Hlen. unfold compare_features, Np.dot.
  rewrite Hlen, Nat.eqb_refl. cbv beta iota delta [bind].
  fold (dot_value a b).
  destruct (Float.eqb (Np.norm a) 0) eqn:Ha;
    [| destruct (Float.eqb (Np.norm b) 0) eqn:Hb]; cbn [orb].
  - apply float_eqb_true in Ha. exists 0%R. repeat split; try reflexivity.
    intros H. contradiction.
  - apply float_eqb_true in Hb. exists 0%R. repeat split; try reflexivity.
    intros _ H. contradiction.
  - apply float_eqb_false in Ha. apply float_eqb_false in Hb.
    assert (Hprod : (Np.norm a * Np.norm b)%R <> 0%R)
      by (apply Rmult_integral_contrapositive; split; assumption).
    unfold Np.true_divide. apply float_eqb_false in Hprod. rewrite Hprod.
    exists (dot_value a b / (Np.norm a * Np.norm b))%R.
    repeat split; try reflexivity.
    intros [H | H]; contradiction.
Qed.

Lemma compare_features_raise (a b : list R) (t : R) (e : exn) :
  compare_features a b t = Raise e ->
  length a <> length b /\ exists msg, e = ValueError msg.
Proof.
  intros H. destruct (Nat.eq_dec (length a) (length b)) as [Hlen | Hlen].
  - destruct (compare_features_ok a b Hlen) as (sim & Hs & _).
    rewrite Hs in H. discriminate H.
  - split; [exact Hlen |].
    unfold compare_features, Np.dot in H.
    apply Nat.eqb_neq in Hlen. rewrite Hlen in H. simpl in H.
    injection H as <-. eexists. reflexivity.
Qed.

Lemma compare_features_ok_inv (a b : list R) (t : R) (r : verify_result) :
  compare_features a b t = Ok r -> length a = length b.
Proof.
  intros H. destruct (Nat.eq_dec (length a) (length b)) as [Hlen | Hlen].
  - exact Hlen.
  - unfold compare_features, Np.dot in H.
    apply Nat.eqb_neq in Hlen. rewrite Hlen in H. discriminate H.
Qed.

Lemma compare_same (v : list R) (t : R) :
  (0 < sum_squares v)%R ->
  compare_features v v t =
  Ok (mkVerify (Float.geb 1 (1 - t)) 100%R 1%R (1 - t)%R).
Proof.
  intros Hpos. destruct (compare_features_ok v v eq_refl) as (sim & Hs & _ & Hd).
  pose proof (norm_pos v Hpos) as Hn.
  assert (Hsim : sim = 1%R).
  { rewrite Hd by lra.
    assert (Hdv : dot_value v v = sum_squares v).
    { pose proof (dot_self v) as Hds. unfold Np.dot in Hds.
      rewrite Nat.eqb_refl in Hds. injection Hds as Hds. exact Hds. }
    rewrite Hdv. unfold Np.norm. fold (sum_squares v).
    rewrite sqrt_sqrt by lra. field. lra. }
  rewrite Hs, Hsim. f_equal. f_equal.
  rewrite clamp_spec. unfold Rmax, Rmin.
  destruct (Rle_dec 100 (1 * 100)); [| lra].
  destruct (Rle_dec 0 100); lra.
Qed.

Lemma sum_squares_opp (v : list R) : sum_squares (map Ropp v) = sum_squares v.
Proof.
  unfold sum_squares. induction v as [| x r IH]; simpl; [reflexivity |].
  rewrite IH. lra.
Qed.

Lemma dot_value_opp (v : list R) : dot_value v (map Ropp v) = (- sum_squares v)%R.
Proof.
  unfold dot_value, sum_squares. induction v as [| x r IH]; simpl; [lra |].
  rewrite IH. lra.
Qed.

Lemma compare_negated (v : list R) (t : R) :
  (0 < sum_squares v)%R ->
  compare_features v (map Ropp v) t =
  Ok (mkVerify (Float.geb (-1) (1 - t)) 0%R (-1)%R (1 - t)%R).
Proof.
  intros Hpos.
  assert (Hlen : length v = length (map Ropp v)) by (rewrite length_map; reflexivity).
  destruct (compare_features_ok v (map Ropp v) Hlen) as (sim & Hs & _ & Hd).
  pose proof (norm_pos v Hpos) as Hn.
  assert (Hn' : Np.norm (map Ropp v) = Np.norm v).
  { unfold Np.norm. fold (sum_squares (map Ropp v)). fold (sum_squares v).
    rewrite sum_squares_opp. reflexivity. }
  assert (Hsim : sim = (-1)%R).
  { rewrite Hd by lra. rewrite Hn', dot_value_opp.
    unfold Np.norm. fold (sum_squares v).
    rewrite sqrt_sqrt by lra. field. lra. }
  rewrite Hs, Hsim. f_equal. f_equal.
  rewrite clamp_spec. unfold Rmax, Rmin.
  destruct (Rle_dec 100 (-1 * 100)); [lra |].
  destruct (Rle_dec 0 (-1 * 100)); lra.
Qed.

(** ** The histogram of a byte buffer *)

Lemma fold_max_ge (r : list Z) (x : Z) : (x <= fold_left Z.max r x)%Z.
Proof.
  revert x. induction r as [| y r IH]; simpl; intros x; [lia |].
  specialize (IH (Z.max x y)). lia.
Qed.

Lemma fold_min_le (r : list Z) (x : Z) : (fold_left Z.min r x <= x)%Z.
Proof.
  revert x. induction r as [| y r IH]; simpl; intros x; [lia |].
  specialize (IH (Z.min x y)). lia.
Qed.

Lemma fold_max_In (r : list Z) (x : Z) : In (fold_left Z.max r x) (x :: r).
Proof.
  revert x. induction r as [| y r IH]; simpl; intros x; [left; reflexivity |].
  destruct (IH (Z.max x y)) as [H | H].
  - rewrite <- H. destruct (Z.max_spec x y) as [[_ ->] | [_ ->]]; auto.
  - right. right. exact H.
Qed.

Lemma filter_length_pos {A : Type} (f : A -> bool) (l : list A) (x : A) :
  In x l -> f x = true -> (1 <= length (filter f l))%nat.
Proof.
  intros Hin Hf.
  assert (H : In x (filter f l)) by (apply filter_In; split; assumption).
  destruct (filter f l); [contradiction | simpl; lia].
Qed.

Lemma fold_max_ge_all (r : list Z) (x v : Z) :
  In v (x :: r) -> (v <= fold_left Z.max r x)%Z.
Proof.
  revert x. induction r as [| y r IH]; simpl; intros x H.
  - destruct H as [-> | []]. lia.
  - pose proof (fold_max_ge r (Z.max x y)) as Hge.
    destruct H as [-> | [-> | H]]; try lia.
    apply IH. right. exact H.
Qed.

Lemma fold_min_le_all (r : list Z) (x v : Z) :
  In v (x :: r) -> (fold_left Z.min r x <= v)%Z.
Proof.
  revert x. induction r as [| y r IH]; simpl; intros x H.
  - destruct H as [-> | []]. lia.
  - pose proof (fold_min_le r (Z.min x y)) as Hle.
    destruct H as [-> | [-> | H]]; try lia.
    apply IH. right. exact H.
Qed.

Lemma fold_min_In (r : list Z) (x : Z) : In (fold_left Z.min r x) (x :: r).
Proof.
  revert x. induction r as [| y r IH]; simpl; intros x; [left; reflexivity |].
  destruct (IH (Z.min x y)) as [H | H].
  - rewrite <- H. destruct (Z.min_spec x y) as [[_ ->] | [_ ->]]; auto.
  - right. right. exact H.
Qed.

(** Counting by bin and then by value, or the other way round. *)
Lemma count_by_bin_or_by_value (p : nat -> Z -> bool) (bins : list nat) (a : list Z) :
  list_sum (map (fun i => length (filter (p i) a)) bins)
  = list_sum (map (fun v => length (filter (fun i => p i v) bins)) a).
Proof.
  induction a as [| v a IH]; simpl.
  - induction bins; simpl; [reflexivity | assumption].
  - rewrite <- IH. clear IH.
    induction bins as [| i bins IHb]; simpl; [reflexivity |].
    destruct (p i v); simpl; rewrite IHb; lia.
Qed.

(** The tables of binary64 facts hold: each is decided by evaluating the
    float operations on all bytes. *)
Lemma subtraction_table : for_all_byte_pairs subtraction_is_exact = true.
Proof. vm_compute. reflexivity. Qed.

Lemma order_table : for_all_byte_pairs order_is_kept = true.
Proof. vm_compute. reflexivity. Qed.

Lemma first_index_table : for_all_byte_pairs first_index_in_range = true.
Proof. vm_compute. reflexivity. Qed.

Lemma first_edge_table : for_all_byte_pairs first_edge_is_minimum = true.
Proof. vm_compute. reflexivity. Qed.

Lemma constant_buffer_table : forallb constant_buffer_bin byte_values = true.
Proof. vm_compute. reflexivity. Qed.

Lemma byte_values_In (b : Z) : is_uint8 b -> In b byte_values.
Proof.
  intros H. unfold byte_values. apply in_map_iff.
  exists (Z.to_nat b). unfold is_uint8 in H. split; [lia |].
  apply in_seq. lia.
Qed.

Lemma for_all_byte_pairs_spec (p : Z -> Z -> bool) (x y : Z) :
  for_all_byte_pairs p = true ->
  is_uint8 x -> is_uint8 y -> (y <= x)%Z -> p x y = true.
Proof.
  unfold for_all_byte_pairs. intros H Hx Hy Hle.
  rewrite forallb_forall in H. specialize (H x (byte_values_In x Hx)).
  rewrite forallb_forall in H. specialize (H y (byte_values_In y Hy)).
  destruct (Z.ltb_spec x y); [lia | exact H].
Qed.

Lemma subtraction_exact (x y : Z) :
  is_uint8 x -> is_uint8 y -> (y <= x)%Z ->
  PrimFloat.sub (F64.of_Z x) (F64.of_Z y) = F64.of_Z (x - y).
Proof.
  intros Hx Hy Hle. apply FloatAxioms.Leibniz.eqb_spec.
  exact (for_all_byte_pairs_spec _ x y subtraction_table Hx Hy Hle).
Qed.

Lemma order_kept (x y : Z) :
  is_uint8 x -> is_uint8 y -> (y <= x)%Z ->
  PrimFloat.leb (F64.of_Z y) (F64.of_Z x) = true /\
  PrimFloat.ltb (F64.of_Z x) (F64.of_Z y) = false.
Proof.
  intros Hx Hy Hle.
  pose proof (for_all_byte_pairs_spec _ x y order_table Hx Hy Hle) as H.
  unfold order_is_kept in H. apply andb_true_iff in H. destruct H as [H1 H2].
  split; [exact H1 | apply negb_true_iff; exact H2].
Qed.

Lemma first_edge_minimum (lo hi : Z) :
  is_uint8 lo -> is_uint8 hi -> (lo <= hi)%Z ->
  Np.item (Np.linspace (F64.of_Z lo) (F64.of_Z hi) 51) 0 = F64.of_Z lo.
Proof.
  intros Hlo Hhi Hle. apply FloatAxioms.Leibniz.eqb_spec.
  exact (for_all_byte_pairs_spec _ hi lo first_edge_table Hhi Hlo Hle).
Qed.

(** The index numpy computes for a byte between the minimum and the
    maximum of the buffer is one of the 50 bins. *)
Lemma bin_index_in_range (lo hi v : Z) :
  is_uint8 lo -> is_uint8 hi -> (lo <= v <= hi)%Z ->
  (0 <= Np.bin_index (F64.of_Z lo) (F64.of_Z hi)
          (Np.linspace (F64.of_Z lo) (F64.of_Z hi) 51) 50 v < 50)%Z.
Proof.
  intros Hlo Hhi Hv.
  assert (Hu : is_uint8 v) by (unfold is_uint8 in *; lia).
  unfold Np.bin_index.
  rewrite (subtraction_exact v lo Hu Hlo) by lia.
  rewrite (subtraction_exact hi lo Hhi Hlo) by lia.
  assert (Hd : is_uint8 (hi - lo)) by (unfold is_uint8 in *; lia).
  assert (Ha : is_uint8 (v - lo)) by (unfold is_uint8 in *; lia).
  pose proof (for_all_byte_pairs_spec _ (hi - lo)%Z (v - lo)%Z first_index_table Hd Ha
                ltac:(lia)) as H0.
  unfold first_index_in_range in H0.
  set (edges := Np.linspace (F64.of_Z lo) (F64.of_Z hi) 51).
  set (i0 := F64.to_Z _) in *.
  apply andb_true_iff in H0. destruct H0 as [H0 H0'].
  apply Z.leb_le in H0, H0'.
  change (Z.of_nat 50) with 50%Z.
  set (i1 := if (i0 =? 50)%Z then (i0 - 1)%Z else i0).
  assert (H1 : (0 <= i1 <= 49)%Z).
  { unfold i1. destruct (Z.eqb_spec i0 50); lia. }
  clearbody i1. clear H0 H0'. clearbody i0.
  set (i2 := if PrimFloat.ltb (F64.of_Z v) (Np.item edges i1) then (i1 - 1)%Z else i1).
  assert (H2 : (0 <= i2 <= 49)%Z).
  { unfold i2. destruct (PrimFloat.ltb (F64.of_Z v) (Np.item edges i1)) eqn:Hdec; [| lia].
    destruct (Z.eq_dec i1 0) as [-> | Hne]; [| lia].
    unfold edges in Hdec. rewrite (first_edge_minimum lo hi Hlo Hhi) in Hdec by lia.
    destruct (order_kept v lo Hu Hlo) as [_ Hlt]; [lia |].
    rewrite Hlt in Hdec. discriminate Hdec. }
  clearbody i2.
  destruct (PrimFloat.leb (Np.item edges (i2 + 1)) (F64.of_Z v)
            && negb (i2 =? 50 - 1)%Z) eqn:Hinc; [| lia].
  apply andb_true_iff in Hinc. destruct Hinc as [_ Hinc].
  apply negb_true_iff, Z.eqb_neq in Hinc. lia.
Qed.

Lemma constant_buffer_index (m : Z) :
  is_uint8 m ->
  let first_edge := PrimFloat.sub (F64.of_Z m) F64.half in
  let last_edge := PrimFloat.add (F64.of_Z m) F64.half in
  PrimFloat.leb first_edge (F64.of_Z m) && PrimFloat.leb (F64.of_Z m) last_edge = true /\
  Np.bin_index first_edge last_edge (Np.linspace first_edge last_edge 51) 50 m = 25%Z.
Proof.
  intros Hm. pose proof constant_buffer_table as H.
  rewrite forallb_forall in H. specialize (H m (byte_values_In m Hm)).
  unfold constant_buffer_bin in H.
  apply andb_true_iff in H. destruct H as [H1 H2].
  split; [exact H1 | apply Z.eqb_eq; exact H2].
Qed.

Lemma filter_all {A : Type} (f : A -> bool) (l : list A) :
  (forall x, In x l -> f x = true) -> filter f l = l.
Proof.
  induction l as [| a l IH]; intros H; simpl; [reflexivity |].
  rewrite (H a (or_introl eq_refl)), IH; [reflexivity |].
  intros x Hx. apply H. right. exact Hx.
Qed.

(** The histogram of a non-empty byte buffer counts, for each of the 50
    bins, the indices that numpy computes, there is one index for each
    byte, and each one is a bin. *)
Lemma histogram_indices (x : Z) (r : list Z) :
  Forall is_uint8 (x :: r) ->
  exists indices,
    length indices = length (x :: r) /\
    Forall (fun i => 0 <= i < 50)%Z indices /\
    Np.histogram (x :: r) 50 =
    map (fun i => length (filter (Z.eqb (Z.of_nat i)) indices)) (seq 0 50).
Proof.
  intros Hu. rewrite Forall_forall in Hu.
  unfold Np.histogram, Np.outer_edges.
  set (a := x :: r) in *.
  pose proof (fold_min_In r x) as Hlo. pose proof (fold_max_In r x) as Hhi.
  assert (Hrange : forall v, In v a ->
             (fold_left Z.min r x <= v <= fold_left Z.max r x)%Z).
  { intros v Hv. split; [apply fold_min_le_all | apply fold_max_ge_all]; exact Hv. }
  set (lo := fold_left Z.min r x) in *. set (hi := fold_left Z.max r x) in *.
  fold a in Hlo, Hhi.
  apply Hu in Hlo, Hhi.
  change (50 + 1)%nat with 51%nat.
  destruct (Z.eqb_spec lo hi) as [E | E].
  - assert (Hconst : forall v, In v a -> v = lo).
    { intros v Hv. specialize (Hrange v Hv). lia. }
    rewrite <- E.
    destruct (constant_buffer_index lo Hlo) as (Hkeep & Hidx).
    cbv zeta in Hkeep, Hidx.
    set (first_edge := PrimFloat.sub (F64.of_Z lo) F64.half) in *.
    set (last_edge := PrimFloat.add (F64.of_Z lo) F64.half) in *.
    rewrite filter_all.
    2:{ intros v Hv. rewrite (Hconst v Hv). exact Hkeep. }
    eexists. split; [apply length_map |]. split; [| reflexivity].
    apply Forall_forall. intros i Hi. apply in_map_iff in Hi.
    destruct Hi as (v & <- & Hv). rewrite (Hconst v Hv), Hidx. lia.
  - rewrite filter_all.
    2:{ intros v Hv. specialize (Hrange v Hv). pose proof (Hu v Hv) as Hv8.
        destruct (order_kept v lo Hv8 Hlo) as [H1 _]; [lia |].
        destruct (order_kept hi v Hhi Hv8) as [H2 _]; [lia |].
        rewrite H1, H2. reflexivity. }
    eexists. split; [apply length_map |]. split; [| reflexivity].
    apply Forall_forall. intros i Hi. apply in_map_iff in Hi.
    destruct Hi as (v & <- & Hv).
    apply bin_index_in_range; auto.
Qed.

Lemma index_in_one_bin (v : Z) (start n : nat) :
  length (filter (fun i => Z.eqb (Z.of_nat i) v) (seq start n))
  = if ((Z.of_nat start <=? v) && (v <? Z.of_nat (start + n)))%Z then 1%nat else 0%nat.
Proof.
  revert start. induction n as [| n IH]; intros start.
  - simpl. destruct (Z.leb_spec (Z.of_nat start) v), (Z.ltb_spec v (Z.of_nat (start + 0)));
      simpl; try reflexivity; lia.
  - cbn [seq filter]. destruct (Z.eqb_spec (Z.of_nat start) v) as [E | E].
    + cbn [length]. rewrite IH.
      destruct (Z.leb_spec (Z.of_nat (S start)) v); [lia |]. cbn [andb].
      destruct (Z.leb_spec (Z.of_nat start) v); [| lia].
      destruct (Z.ltb_spec v (Z.of_nat (start + S n))); [reflexivity | lia].
    + rewrite IH.
      destruct (Z.leb_spec (Z.of_nat (S start)) v), (Z.leb_spec (Z.of_nat start) v),
        (Z.ltb_spec v (Z.of_nat (S start + n))), (Z.ltb_spec v (Z.of_nat (start + S n)));
        simpl; try reflexivity; lia.
Qed.

Lemma counts_total (indices : list Z) :
  Forall (fun i => 0 <= i < 50)%Z indices ->
  list_sum (map (fun i => length (filter (Z.eqb (Z.of_nat i)) indices)) (seq 0 50))
  = length indices.
Proof.
  intros H.
  rewrite (count_by_bin_or_by_value (fun i v => Z.eqb (Z.of_nat i) v)).
  induction H as [| v l Hv Hl IH]; [reflexivity |].
  cbn [map length].
  change (list_sum (?n :: ?l)) with (n + list_sum l)%nat.
  rewrite IH, index_in_one_bin.
  change (Z.of_nat 0) with 0%Z. change (Z.of_nat (0 + 50)) with 50%Z.
  destruct (Z.leb_spec 0 v); [| lia].
  destruct (Z.ltb_spec v 50); [reflexivity | lia].
Qed.

Lemma histogram_total (x : Z) (r : list Z) :
  Forall is_uint8 (x :: r) ->
  list_sum (Np.histogram (x :: r) 50) = length (x :: r).
Proof.
  intros Hu. destruct (histogram_indices x r Hu) as (indices & Hlen & Hin & ->).
  rewrite counts_total; assumption.
Qed.

Lemma histogram_has_count (x : Z) (r : list Z) :
  Forall is_uint8 (x :: r) ->
  exists c, In c (Np.histogram (x :: r) 50) /\ (1 <= c)%nat.
Proof.
  intros Hu. destruct (histogram_indices x r Hu) as (indices & Hlen & Hin & ->).
  destruct indices as [| i rest]; [discriminate Hlen |].
  pose proof (Forall_inv Hin) as Hi. cbv beta in Hi.
  exists (length (filter (Z.eqb (Z.of_nat (Z.to_nat i))) (i :: rest))). split.
  - apply in_map_iff. exists (Z.to_nat i). split; [reflexivity |].
    apply in_seq. lia.
  - apply (filter_length_pos _ _ i); [left; reflexivity |].
    apply Z.eqb_eq. lia.
Qed.

(** A returned feature vector is not the zero vector. *)
Lemma extract_features_nonzero (s : string) (v : list R) :
  extract_audio_features s = Ok v -> (0 < sum_squares v)%R.
Proof.
  intros H. destruct (extract_ok_inv _ _ H) as (bytes & f & Hd & Hne & Hf & ->).
  pose proof (decode_audio_uint8 _ _ Hd) as Hu.
  destruct bytes as [| x r]; [contradiction |].
  rewrite (pad_short _ (raw_features_short _ _ Hf)).
  rewrite raw_features_cons in Hf. injection Hf as <-.
  destruct (histogram_has_count x r Hu) as (c & Hc & Hpos).
  assert (Hin : In (Float.of_nat c) (histogram_features (x :: r))).
  { unfold histogram_features. rewrite firstn_all2.
    - apply in_map. exact Hc.
    - rewrite length_map, histogram_length. lia. }
  match goal with
  | |- (0 < sum_squares ?l)%R =>
      assert (Hl : In (Float.of_nat c) l)
  end.
  { apply in_or_app. left. do 5 right. apply in_or_app. left. exact Hin. }
  apply sum_squares_In in Hl.
  assert (Hc1 : (1 <= Float.of_nat c)%R).
  { unfold Float.of_nat. apply IZR_le. lia. }
  nra.
Qed.

(** ** Enrollment and verification *)

Lemma append_empty_r (s : string) : (s ++ "")%string = s.
Proof. induction s as [| c r IH]; simpl; [reflexivity | rewrite IH; reflexivity]. Qed.

Section ServiceProperties.

Variable encrypt_data : string -> result string.
Variable decrypt_data : string -> result string.
Variable json_dumps : list R -> string.
Variable json_loads : string -> result (list R).

Lemma verify_steps (audio stored j : string) (v w : list R) (t : R) :
  extract_audio_features audio = Ok v ->
  decrypt_data stored = Ok j ->
  json_loads j = Ok w ->
  verify_body decrypt_data json_loads audio stored t = compare_features v w t.
Proof.
  intros Hv Hj Hw. unfold verify_body. rewrite Hv. cbv beta iota delta [bind].
  rewrite Hj, Hw. reflexivity.
Qed.

Lemma verify_ok_inv (audio stored : string) (t : R) (r : verify_result) :
  verify_voice decrypt_data json_loads audio stored t = Ok r ->
  exists v j w,
    extract_audio_features audio = Ok v /\
    decrypt_data stored = Ok j /\
    json_loads j = Ok w /\
    compare_features v w t = Ok r.
Proof.
  unfold verify_voice. intros H.
  apply try_except_reraise_inv in H. unfold verify_body in H.
  apply bind_ok in H. destruct H as (v & Hv & H).
  apply bind_ok in H. destruct H as (j & Hj & H).
  apply bind_ok in H. destruct H as (w & Hw & H).
  exists v, j, w. auto.
Qed.

(** The fields of a returned record, in terms of one similarity value
    that does not depend on the tolerance. *)
Lemma verify_ok_shape (audio stored : string) (t : R) (r : verify_result) :
  verify_voice decrypt_data json_loads audio stored t = Ok r ->
  exists sim,
    forall t', verify_voice decrypt_data json_loads audio stored t' =
               Ok (mkVerify (Float.geb sim (1 - t'))
                     (Float.py_max 0 (Float.py_min 100 (sim * 100)))
                     sim (1 - t')%R).
Proof.
  intros H. destruct (verify_ok_inv _ _ _ _ H) as (v & j & w & Hv & Hj & Hw & Hc).
  destruct (compare_features_ok v w (compare_features_ok_inv _ _ _ _ Hc))
    as (sim & Hs & _).
  exists sim. intros t'. unfold verify_voice.
  rewrite (verify_steps _ _ _ _ _ t' Hv Hj Hw), Hs. reflexivity.
Qed.

(** Verifying a sample against its own features. *)
Lemma verify_same (audio stored j : string) (v : list R) (t : R) :
  extract_audio_features audio = Ok v ->
  decrypt_data stored = Ok j ->
  json_loads j = Ok v ->
  verify_voice decrypt_data json_loads audio stored t =
  Ok (mkVerify (Float.geb 1 (1 - t)) 100%R 1%R (1 - t)%R).
Proof.
  intros Hv Hj Hw. unfold verify_voice.
  rewrite (verify_steps _ _ _ _ _ t Hv Hj Hw).
  rewrite (compare_same v _ (extract_features_nonzero _ _ Hv)).
  reflexivity.
Qed.

(** Verifying a sample against the opposite of its features. *)
Lemma verify_negated (audio stored j : string) (v : list R) (t : R) :
  extract_audio_features audio = Ok v ->
  decrypt_data stored = Ok j ->
  json_loads j = Ok (map Ropp v) ->
  verify_voice decrypt_data json_loads audio stored t =
  Ok (mkVerify (Float.geb (-1) (1 - t)) 0%R (-1)%R (1 - t)%R).
Proof.
  intros Hv Hj Hw. unfold verify_voice.
  rewrite (verify_steps _ _ _ _ _ t Hv Hj Hw).
  rewrite (compare_negated v _ (extract_features_nonzero _ _ Hv)).
  reflexivity.
Qed.

(** C2: for every audio input on which enrollment succeeds, verifying that
    same audio against the ciphertext that [enroll_voice] returned, with the
    default tolerance 0.65, gives similarity 1.0 and success, provided
    decryption undoes encryption (and the JSON text of the enrolled vector
    parses back to it).  Floats being real numbers here, the similarity is
    exactly 1. *)
Theorem enroll_then_verify_matches (audio c : string) :
  (forall p c', encrypt_data p = Ok c' -> decrypt_data c' = Ok p) ->
  (forall v, extract_audio_features audio = Ok v ->
             json_loads (json_dumps v) = Ok v) ->
  enroll_voice encrypt_data json_dumps audio = Ok c ->
  exists r, verify_voice decrypt_data json_loads audio c default_tolerance = Ok r /\
            similarity r = 1%R /\ success r = true.
Proof.
  intros Hcrypt Hjson Henroll.
  unfold enroll_voice in Henroll.
  apply try_except_reraise_inv in Henroll. unfold enroll_body in Henroll.
  apply bind_ok in Henroll. destruct Henroll as (v & Hv & H).
  apply bind_ok in H. destruct H as (c' & Hc & H). injection H as ->.
  eexists. split.
  - apply (verify_same _ _ _ _ _ Hv (Hcrypt _ _ Hc) (Hjson _ Hv)).
  - split; [reflexivity |]. cbn [success].
    apply float_geb_true. unfold default_tolerance. lra.
Qed.

(** C3: in [verify_voice], when the probe feature vector or the stored
    feature vector (a vector of the 200 entries the probe has) has zero
    Euclidean norm, the similarity is set to 0 and, for every tolerance
    strictly below 1, success is false; the division of the cosine is
    executed with a non-zero divisor only, so that the comparison raises no
    division error, whatever the two arrays and the tolerance. *)
Theorem zero_norm_gives_zero_similarity
    (audio stored j : string) (v w : list R) (t : R) :
  extract_audio_features audio = Ok v ->
  decrypt_data stored = Ok j ->
  json_loads j = Ok w ->
  length w = target_size ->
  (Np.norm v = 0 \/ Np.norm w = 0)%R ->
  (exists r, verify_voice decrypt_data json_loads audio stored t = Ok r /\
             similarity r = 0%R /\
             ((t < 1)%R -> success r = false)) /\
  (forall (a b : list R) (t' : R) (msg : string),
      compare_features a b t' <> Raise (FloatingPointError msg)).
Proof.
  intros Hv Hj Hw Hlen Hzero. split.
  - assert (Hl : length v = length w)
      by (rewrite Hlen; apply (extract_length _ _ Hv)).
    destruct (compare_features_ok v w Hl) as (sim & Hs & Hz & _).
    rewrite (Hz Hzero) in Hs.
    eexists. split.
    + unfold verify_voice.
      rewrite (verify_steps _ _ _ _ _ t Hv Hj Hw), Hs. reflexivity.
    + split; [reflexivity |]. intros Ht. cbn [success].
      apply not_true_is_false. rewrite float_geb_true. lra.
  - intros a b t' msg H.
    destruct (compare_features_raise _ _ _ _ H) as (_ & m & Hm).
    discriminate Hm.
Qed.

(** C4: for every successful [verify_voice] call with tolerance [t], success
    is true if and only if the similarity is at least [1 - t], and the
    threshold field is [1 - t]; a lower tolerance is a stricter
    requirement: the same call with a larger tolerance [t'] has the same
    similarity, a threshold that is not higher, and succeeds whenever the
    call with [t] does. *)
Theorem success_iff_similarity_reaches_threshold
    (audio stored : string) (t : R) (r : verify_result) :
  verify_voice decrypt_data json_loads audio stored t = Ok r ->
  (success r = true <-> (similarity r >= 1 - t)%R) /\
  threshold r = (1 - t)%R /\
  forall t', (t <= t')%R ->
    exists r', verify_voice decrypt_data json_loads audio stored t' = Ok r' /\
               similarity r' = similarity r /\
               (threshold r' <= threshold r)%R /\
               (success r = true -> success r' = true).
Proof.
  intros H. destruct (verify_ok_shape _ _ _ _ H) as (sim & Hs).
  rewrite Hs in H. injection H as <-. cbn [success similarity threshold].
  split; [apply float_geb_true |]. split; [reflexivity |].
  intros t' Ht. eexists. split; [apply Hs |].
  cbn [success similarity threshold].
  split; [reflexivity |]. split; [lra |].
  rewrite !float_geb_true. lra.
Qed.

(** C7: for every successful [verify_voice] call the confidence is the
    similarity times 100 clamped to [0, 100]; every negative similarity
    gives confidence exactly 0, and no confidence is below 0 or above
    100. *)
Theorem confidence_is_clamped
    (audio stored : string) (t : R) (r : verify_result) :
  verify_voice decrypt_data json_loads audio stored t = Ok r ->
  confidence r = Rmax 0 (Rmin 100 (similarity r * 100)) /\
  ((similarity r < 0)%R -> confidence r = 0%R) /\
  (0 <= confidence r <= 100)%R.
Proof.
  intros H. destruct (verify_ok_shape _ _ _ _ H) as (sim & Hs).
  rewrite Hs in H. injection H as <-. cbn [confidence similarity].
  rewrite clamp_spec. split; [reflexivity |].
  unfold Rmax, Rmin.
  destruct (Rle_dec 100 (sim * 100));
    match goal with
    | |- context [Rle_dec 0 ?x] => destruct (Rle_dec 0 x)
    end; split; intros; lra.
Qed.

(** C8: every failure inside [extract_audio_features], [enroll_voice] or
    [verify_voice] is re-raised as one [ValueError] whose message is the
    operation's prefix followed by the text of the cause, and these
    functions raise nothing else; every failure inside
    [detect_voice_in_audio] becomes a normal record with
    [voice_detected = false] and the message "Error: " followed by the text
    of the cause, and [detect_voice_in_audio] never raises. *)
Theorem failures_are_wrapped_or_absorbed :
  (forall s e,
      extract_body s = Raise e ->
      extract_audio_features s =
      Raise (ValueError ("Audio feature extraction failed: " ++ str_exn e))) /\
  (forall s e,
      enroll_body encrypt_data json_dumps s = Raise e ->
      enroll_voice encrypt_data json_dumps s = Raise (ValueError ("Voice enrollment failed: " ++ str_exn e))) /\
  (forall s c t e,
      verify_body decrypt_data json_loads s c t = Raise e ->
      verify_voice decrypt_data json_loads s c t =
      Raise (ValueError ("Voice verification failed: " ++ str_exn e))) /\
  (forall s e', extract_audio_features s = Raise e' ->
      exists e, extract_body s = Raise e /\
        e' = ValueError ("Audio feature extraction failed: " ++ str_exn e) /\
        Str.embeds (str_exn e') (str_exn e)) /\
  (forall s e', enroll_voice encrypt_data json_dumps s = Raise e' ->
      exists e, enroll_body encrypt_data json_dumps s = Raise e /\
        e' = ValueError ("Voice enrollment failed: " ++ str_exn e) /\
        Str.embeds (str_exn e') (str_exn e)) /\
  (forall s c t e', verify_voice decrypt_data json_loads s c t = Raise e' ->
      exists e, verify_body decrypt_data json_loads s c t = Raise e /\
        e' = ValueError ("Voice verification failed: " ++ str_exn e) /\
        Str.embeds (str_exn e') (str_exn e)) /\
  (forall s e,
      detect_body s = Raise e ->
      detect_voice_in_audio s =
      Ok {| voice_detected := false;
            energy := None;
            message := "Error: " ++ str_exn e |} /\
      Str.embeds ("Error: " ++ str_exn e) (str_exn e)) /\
  (forall s, exists r, detect_voice_in_audio s = Ok r).
Proof.
  assert (Hembed : forall pre cause, Str.embeds (pre ++ cause) cause).
  { intros pre cause. exists pre, EmptyString.
    rewrite append_empty_r. reflexivity. }
  assert (Hinv : forall (A : Type) (body : result A) (pre : string) (e' : exn),
             try_except body
               (fun e => Raise (ValueError (pre ++ str_exn e))) = Raise e' ->
             exists e, body = Raise e /\
                       e' = ValueError (pre ++ str_exn e) /\
                       Str.embeds (str_exn e') (str_exn e)).
  { intros A body pre e' H. destruct body as [a | e]; simpl in H.
    - discriminate H.
    - injection H as <-. exists e. repeat split. apply Hembed. }
  repeat split.
  - intros s e H. unfold extract_audio_features. rewrite H. reflexivity.
  - intros s e H. unfold enroll_voice. rewrite H. reflexivity.
  - intros s c t e H. unfold verify_voice. rewrite H. reflexivity.
  - intros s e' H. apply (Hinv _ _ _ _ H).
  - intros s e' H. apply (Hinv _ _ _ _ H).
  - intros s c t e' H. apply (Hinv _ _ _ _ H).
  - unfold detect_voice_in_audio. rewrite H. reflexivity.
  - apply Hembed.
  - intros s. unfold detect_voice_in_audio.
    destruct (detect_body s) as [r | e]; simpl; eauto.
Qed.

End ServiceProperties.

(** ** The theorems at concrete inputs *)

Lemma extract_AQID : exists v, extract_audio_features "AQID" = Ok v.
Proof.
  destruct (extract_nonempty "AQID" 1%Z [2; 3]%Z eq_refl) as (f & _ & Hv).
  eauto.
Qed.

Lemma enroll_AQID :
  enroll_voice plain_cipher dumps_fixed "AQID" = Ok "features"%string.
Proof.
  destruct extract_AQID as (v & Hv).
  unfold enroll_voice, enroll_body. rewrite Hv. reflexivity.
Qed.

Lemma enroll_then_verify_matches_witness :
  enroll_voice plain_cipher dumps_fixed "AQID" = Ok "features"%string /\
  exists r,
    verify_voice plain_cipher (loads_features_of "AQID") "AQID" "features"
      default_tolerance = Ok r /\
    similarity r = 1%R /\ success r = true.
Proof.
  split; [exact enroll_AQID |].
  apply (enroll_then_verify_matches plain_cipher plain_cipher dumps_fixed
           (loads_features_of "AQID") "AQID" "features").
  - intros p c' H. injection H as <-. reflexivity.
  - intros v Hv. exact Hv.
  - exact enroll_AQID.
Defined.

Lemma zero_norm_gives_zero_similarity_witness :
  exists r,
    verify_voice plain_cipher loads_zeros "AQID" "zeros" (1 / 2) = Ok r /\
    similarity r = 0%R /\ success r = false.
Proof.
  destruct extract_AQID as (v & Hv).
  destruct (zero_norm_gives_zero_similarity plain_cipher loads_zeros
              "AQID" "zeros" "zeros" v (repeat 0%R target_size) (1 / 2)
              Hv eq_refl eq_refl (repeat_length _ _)
              (or_intror (norm_zeros target_size)))
    as ((r & Hr & Hs & Hf) & _).
  exists r. split; [exact Hr |]. split; [exact Hs |]. apply Hf. lra.
Defined.

Lemma verify_AQID_same (t : R) :
  verify_voice plain_cipher (loads_features_of "AQID") "AQID" "features" t =
  Ok (mkVerify (Float.geb 1 (1 - t)) 100%R 1%R (1 - t)%R).
Proof.
  destruct extract_AQID as (v & Hv).
  apply (verify_same plain_cipher (loads_features_of "AQID")
           "AQID" "features" "features" v t Hv eq_refl Hv).
Qed.

Lemma verify_AQID_negated (t : R) :
  verify_voice plain_cipher (loads_negated_features_of "AQID") "AQID" "negated" t =
  Ok (mkVerify (Float.geb (-1) (1 - t)) 0%R (-1)%R (1 - t)%R).
Proof.
  destruct extract_AQID as (v & Hv).
  apply (verify_negated plain_cipher (loads_negated_features_of "AQID")
           "AQID" "negated" "negated" v t Hv eq_refl).
  unfold loads_negated_features_of. rewrite Hv. reflexivity.
Qed.

Lemma success_iff_similarity_reaches_threshold_witness :
  let r := mkVerify (Float.geb 1 (1 - 1 / 2)) 100%R 1%R (1 - 1 / 2)%R in
  verify_voice plain_cipher (loads_features_of "AQID") "AQID" "features" (1 / 2)
  = Ok r /\
  (success r = true <-> (similarity r >= 1 - 1 / 2)%R) /\
  threshold r = (1 - 1 / 2)%R.
Proof.
  intros r. split; [apply verify_AQID_same |].
  destruct (success_iff_similarity_reaches_threshold plain_cipher
              (loads_features_of "AQID") "AQID" "features" (1 / 2) r
              (verify_AQID_same (1 / 2)))
    as (Hiff & Hth & _).
  split; assumption.
Defined.

Lemma confidence_is_clamped_witness :
  let r := mkVerify (Float.geb (-1) (1 - default_tolerance)) 0%R (-1)%R
             (1 - default_tolerance)%R in
  verify_voice plain_cipher (loads_negated_features_of "AQID") "AQID" "negated"
    default_tolerance = Ok r /\
  (similarity r < 0)%R /\
  confidence r = Rmax 0 (Rmin 100 (similarity r * 100)) /\
  (0 <= confidence r <= 100)%R.
Proof.
  intros r. split; [apply verify_AQID_negated |].
  destruct (confidence_is_clamped plain_cipher
              (loads_negated_features_of "AQID") "AQID" "negated"
              default_tolerance r (verify_AQID_negated default_tolerance))
    as (Hc & _ & Hb).
  split; [simpl; lra |]. split; assumption.
Defined.

Lemma failures_are_wrapped_or_absorbed_witness :
  extract_audio_features "A" =
  Raise (ValueError
    "Audio feature extraction failed: Invalid base64-encoded string: number of data characters (1) cannot be 1 more than a multiple of 4") /\
  enroll_voice plain_cipher dumps_fixed "AA" =
  Raise (ValueError
    "Voice enrollment failed: Audio feature extraction failed: Incorrect padding") /\
  verify_voice rejecting_cipher loads_zeros "AQID" "token" default_tolerance =
  Raise (ValueError "Voice verification failed: ") /\
  detect_voice_in_audio "AA" =
  Ok {| voice_detected := false;
        energy := None;
        message := "Error: Incorrect padding" |}.
Proof.
  destruct (failures_are_wrapped_or_absorbed plain_cipher rejecting_cipher
              dumps_fixed loads_zeros)
    as (Hextract & Henroll & Hverify & _ & _ & _ & Hdetect & _).
  split; [| split; [| split]].
  - apply (Hextract "A"%string
             (BinasciiError
                "Invalid base64-encoded string: number of data characters (1) cannot be 1 more than a multiple of 4")).
    reflexivity.
  - apply (Henroll "AA"%string
             (ValueError "Audio feature extraction failed: Incorrect padding")).
    reflexivity.
  - apply (Hverify "AQID"%string "token"%string default_tolerance
             (CollaboratorError "InvalidToken" "")).
    destruct extract_AQID as (v & Hv).
    unfold verify_body. rewrite Hv. reflexivity.
  - apply (Hdetect "AA"%string (BinasciiError "Incorrect padding")). reflexivity.
Defined.

(** ** The decoder on small inputs *)

Example b64decode_AAAA : Base64.b64decode "AAAA" = Ok [0; 0; 0]%Z.
Proof. reflexivity. Qed.

Example b64decode_AQID : Base64.b64decode "AQID" = Ok [1; 2; 3]%Z.
Proof. reflexivity. Qed.

Example b64decode_padded : Base64.b64decode "/w==" = Ok [255]%Z.
Proof. reflexivity. Qed.

Example b64decode_one_char :
  Base64.b64decode "A" =
  Raise (BinasciiError
           "Invalid base64-encoded string: number of data characters (1) cannot be 1 more than a multiple of 4").
Proof. reflexivity. Qed.

Example b64decode_bad_padding :
  Base64.b64decode "AA" = Raise (BinasciiError "Incorrect padding").
Proof. reflexivity. Qed.

Example strip_data_url :
  strip_data_url_prefix "data:audio/wav;base64,AAAA" = Ok "AAAA"%string.
Proof. reflexivity. Qed.

Example b64decode_skips_other_characters :
  Base64.b64decode "AAAA,AQID" = Ok [0; 0; 0; 1; 2; 3]%Z.
Proof. reflexivity. Qed.

Example b64decode_stops_at_padding :
  Base64.b64decode "AAA=AAAA" = Ok [0; 0]%Z.
Proof. reflexivity. Qed.

Example split_three : Str.split Str.comma "a,b,c" = ["a"; "b"; "c"]%string.
Proof. reflexivity. Qed.

Example histogram_1_2_3 :
  nth 0 (Np.histogram [1; 2; 3]%Z 50) 0%nat = 1%nat /\
  nth 25 (Np.histogram [1; 2; 3]%Z 50) 0%nat = 1%nat /\
  nth 49 (Np.histogram [1; 2; 3]%Z 50) 0%nat = 1%nat.
Proof. vm_compute. repeat split. Qed.

(** A byte on an interior edge of the exact subdivision: 7 is the middle of
    0..14, edge number 25 as a float is just above 7, and the byte is
    counted in bin 24. *)
Example histogram_0_7_14 :
  Np.bin_index (F64.of_Z 0) (F64.of_Z 14)
    (Np.linspace (F64.of_Z 0) (F64.of_Z 14) 51) 50 7 = 24%Z /\
  nth 24 (Np.histogram [0; 7; 14]%Z 50) 0%nat = 1%nat /\
  nth 25 (Np.histogram [0; 7; 14]%Z 50) 0%nat = 0%nat.
Proof. vm_compute. repeat split. Qed.

(** The energy of 2000 bytes of value 255 is 2000 * 255^2 = 130,050,000,
    above the threshold. *)
Example energy_of_loud_buffer :
  sum_squares (Np.astype_float (repeat 255%Z 2000)) = 130050000%R /\
  Float.gtb (sum_squares (Np.astype_float (repeat 255%Z 2000))) energy_threshold
  = true.
Proof.
  rewrite sum_squares_constant.
  change (Z.of_nat 2000 * (255 * 255))%Z with 130050000%Z.
  split; [reflexivity |].
  unfold Float.gtb, energy_threshold.
  destruct (Rgt_dec 130050000 1000000) as [H | H]; [reflexivity | lra].
Qed.
(** * Further properties of the service *)

(** ** The stripped payload *)

Lemma split_segments_no_sep (sep : ascii) (s : string) :
  Forall (fun seg => Str.contains sep seg = false) (Str.split sep s).
Proof.
  induction s as [| c r IH]; simpl.
  - constructor; [reflexivity | constructor].
  - destruct (Ascii.eqb c sep) eqn:Hc.
    + constructor; [reflexivity | exact IH].
    + destruct (Str.split sep r) as [| h t].
      * constructor; [simpl; rewrite Hc; reflexivity | constructor].
      * inversion IH as [| ? ? Hh Ht]; subst.
        constructor; [simpl; rewrite Hc, Hh; reflexivity | exact Ht].
Qed.

(** The stripping step never raises (index 1 of the split is always there
    when the input holds a comma), the payload it hands to the decoder holds
    no comma, and an input without a comma is passed on unchanged. *)
Theorem stripped_payload_has_no_comma (s : string) :
  exists p, strip_data_url_prefix s = Ok p /\
            Str.contains Str.comma p = false /\
            (Str.contains Str.comma s = false -> p = s).
Proof.
  unfold strip_data_url_prefix.
  destruct (Str.contains Str.comma s) eqn:H.
  - destruct (split_two _ _ H) as (a & b & t & E).
    pose proof (split_segments_no_sep Str.comma s) as Hall.
    rewrite E in *. exists b. split; [reflexivity |]. split.
    + inversion Hall as [| ? ? _ Hrest]; subst.
      inversion Hrest; subst. assumption.
    + discriminate.
  - exists s. auto.
Qed.

(** ** When the extractor returns *)

(** The extractor returns a vector exactly when the payload decodes to a
    non-empty buffer; in every other case it raises a [ValueError] whose
    message starts with "Audio feature extraction failed: ". *)
Theorem extract_returns_iff_buffer_nonempty (s : string) :
  ((exists v, extract_audio_features s = Ok v) <->
   (exists x r, decode_audio s = Ok (x :: r))) /\
  ((forall v, extract_audio_features s <> Ok v) ->
   exists cause,
     extract_audio_features s =
     Raise (ValueError ("Audio feature extraction failed: " ++ cause))).
Proof.
  split; [split |].
  - intros (v & Hv).
    destruct (extract_ok_inv _ _ Hv) as (bytes & f & Hd & Hne & _).
    destruct bytes as [| x r]; [contradiction |]. eauto.
  - intros (x & r & Hd).
    destruct (extract_nonempty _ _ _ Hd) as (f & _ & Hv). eauto.
  - intros Hno. destruct (decode_audio s) as [[| x r] | e] eqn:Hd.
    + eexists. apply (extract_empty _ Hd).
    + destruct (extract_nonempty _ _ _ Hd) as (f & _ & Hv).
      exfalso. apply (Hno _ Hv).
    + eexists. apply (extract_decode_raise _ _ Hd).
Qed.

(** The truncation branch of lines 68-69 is never taken: a returned vector
    is the features computed from the buffer, 55 of them for a buffer of at
    most 512 bytes and 105 for a longer one, followed by zeros, so that
    positions 105 to 199 are 0.0 in every returned vector. *)
Theorem features_are_padded_never_truncated (s : string) (v : list R) :
  extract_audio_features s = Ok v ->
  exists bytes raw,
    decode_audio s = Ok bytes /\
    raw_features bytes = Ok raw /\
    length raw = (if (512 <? length bytes)%nat then 105 else 55)%nat /\
    v = raw ++ repeat 0%R (200 - length raw) /\
    forall i, (105 <= i < 200)%nat -> nth_error v i = Some 0%R.
Proof.
  intros Hv.
  destruct (extract_ok_inv _ _ Hv) as (bytes & raw & Hd & Hne & Hraw & ->).
  exists bytes, raw. split; [exact Hd |]. split; [exact Hraw |].
  pose proof (raw_features_length _ _ Hraw) as Hl.
  assert (Hlen : length raw = (if (512 <? length bytes)%nat then 105 else 55)%nat).
  { rewrite Hl. destruct (Nat.ltb_spec 512 (length bytes)) as [Hlong | Hshort].
    - rewrite (fft_features_long _ Hlong). reflexivity.
    - rewrite (fft_features_short _ Hshort). reflexivity. }
  split; [exact Hlen |].
  rewrite (pad_short _ (raw_features_short _ _ Hraw)).
  split; [reflexivity |].
  intros i Hi.
  assert (length raw <= 105)%nat
    by (rewrite Hlen; destruct (512 <? length bytes)%nat; lia).
  rewrite nth_error_app2 by lia.
  apply nth_error_repeat. unfold target_size. lia.
Qed.

Lemma features_are_padded_never_truncated_witness :
  exists v, extract_audio_features "AQID" = Ok v /\
            nth_error v 105 = Some 0%R /\ nth_error v 199 = Some 0%R.
Proof.
  destruct (extract_nonempty "AQID" 1%Z [2; 3]%Z eq_refl) as (f & _ & Hv).
  exists (pad_or_truncate f). split; [exact Hv |].
  destruct (features_are_padded_never_truncated "AQID" _ Hv)
    as (bytes & raw & _ & _ & _ & _ & Hz).
  split; apply Hz; lia.
Defined.

(** ** Undecodable audio *)

(** How the four operations answer an input whose payload does not decode:
    the extractor wraps the decoder's message, enrollment and verification
    wrap the extractor's message once more, verification does so before it
    looks at the stored blob or the tolerance, and the voice-activity check
    reports the decoder's message in a normal record. *)
Theorem undecodable_audio_outcomes
    (encrypt_data decrypt_data : string -> result string)
    (json_dumps : list R -> string) (json_loads : string -> result (list R))
    (s : string) (e : exn) :
  decode_audio s = Raise e ->
  extract_audio_features s =
    Raise (ValueError ("Audio feature extraction failed: " ++ str_exn e)) /\
  enroll_voice encrypt_data json_dumps s =
    Raise (ValueError ("Voice enrollment failed: "
                         ++ "Audio feature extraction failed: " ++ str_exn e)) /\
  (forall stored t,
      verify_voice decrypt_data json_loads s stored t =
      Raise (ValueError ("Voice verification failed: "
                           ++ "Audio feature extraction failed: " ++ str_exn e))) /\
  detect_voice_in_audio s =
    Ok {| voice_detected := false; energy := None;
          message := "Error: " ++ str_exn e |}.
Proof.
  intros Hd. pose proof (extract_decode_raise _ _ Hd) as He.
  split; [exact He |]. split; [| split].
  - unfold enroll_voice, enroll_body. rewrite He. reflexivity.
  - intros stored t. unfold verify_voice, verify_body. rewrite He. reflexivity.
  - unfold detect_voice_in_audio. rewrite detect_body_decode, Hd. reflexivity.
Qed.

Lemma undecodable_audio_outcomes_witness :
  enroll_voice plain_cipher dumps_fixed "data:audio/wav;base64,AAA" =
    Raise (ValueError
      "Voice enrollment failed: Audio feature extraction failed: Incorrect padding") /\
  detect_voice_in_audio "data:audio/wav;base64,AAA" =
    Ok {| voice_detected := false; energy := None;
          message := "Error: Incorrect padding" |}.
Proof.
  destruct (undecodable_audio_outcomes plain_cipher plain_cipher dumps_fixed
              loads_zeros "data:audio/wav;base64,AAA"
              (BinasciiError "Incorrect padding") eq_refl)
    as (_ & Henroll & _ & Hdetect).
  split; [exact Henroll | exact Hdetect].
Defined.

(** The empty buffer, for instance the payload of "data:audio/wav;base64,":
    extraction, enrollment and verification raise with numpy's message, and
    the voice-activity check answers "Audio sample too short". *)
Theorem empty_audio_outcomes
    (encrypt_data decrypt_data : string -> result string)
    (json_dumps : list R -> string) (json_loads : string -> result (list R))
    (s : string) :
  decode_audio s = Ok [] ->
  let cause :=
    "zero-size array to reduction operation maximum which has no identity"%string in
  extract_audio_features s =
    Raise (ValueError ("Audio feature extraction failed: " ++ cause)) /\
  enroll_voice encrypt_data json_dumps s =
    Raise (ValueError ("Voice enrollment failed: "
                         ++ "Audio feature extraction failed: " ++ cause)) /\
  (forall stored t,
      verify_voice decrypt_data json_loads s stored t =
      Raise (ValueError ("Voice verification failed: "
                           ++ "Audio feature extraction failed: " ++ cause))) /\
  detect_voice_in_audio s =
    Ok {| voice_detected := false; energy := None;
          message := "Audio sample too short" |}.
Proof.
  intros Hd cause. pose proof (extract_empty _ Hd) as He.
  split; [exact He |]. split; [| split].
  - unfold enroll_voice, enroll_body. rewrite He. reflexivity.
  - intros stored t. unfold verify_voice, verify_body. rewrite He. reflexivity.
  - unfold detect_voice_in_audio. rewrite detect_body_decode, Hd. reflexivity.
Qed.

Lemma empty_audio_outcomes_witness :
  detect_voice_in_audio "data:audio/wav;base64," =
    Ok {| voice_detected := false; energy := None;
          message := "Audio sample too short" |} /\
  verify_voice plain_cipher loads_zeros "data:audio/wav;base64," "zeros"
    default_tolerance =
  Raise (ValueError
    "Voice verification failed: Audio feature extraction failed: zero-size array to reduction operation maximum which has no identity").
Proof.
  destruct (empty_audio_outcomes plain_cipher plain_cipher dumps_fixed
              loads_zeros "data:audio/wav;base64," eq_refl)
    as (_ & _ & Hverify & Hdetect).
  split; [exact Hdetect | apply Hverify].
Defined.

(** ** When verification returns *)

(** A stored array of another length than 200 makes verification raise with
    numpy's shape message, whatever the tolerance. *)
Theorem verify_rejects_other_lengths
    (decrypt_data : string -> result string)
    (json_loads : string -> result (list R))
    (audio stored j : string) (v w : list R) (t : R) :
  extract_audio_features audio = Ok v ->
  decrypt_data stored = Ok j ->
  json_loads j = Ok w ->
  length w <> 200%nat ->
  verify_voice decrypt_data json_loads audio stored t =
  Raise (ValueError
           ("Voice verification failed: "
              ++ "shapes (200,) and (" ++ Str.of_nat (length w)
              ++ ",) not aligned: 200 (dim 0) != "
              ++ Str.of_nat (length w) ++ " (dim 0)")).
Proof.
  intros Hv Hj Hw Hlen. unfold verify_voice.
  rewrite (verify_steps _ _ _ _ _ _ _ t Hv Hj Hw).
  unfold compare_features, Np.dot.
  rewrite (extract_length _ _ Hv).
  assert (E : Nat.eqb target_size (length w) = false)
    by (apply Nat.eqb_neq; unfold target_size; lia).
  rewrite E. reflexivity.
Qed.

Lemma verify_rejects_other_lengths_witness :
  verify_voice plain_cipher (fun _ => Ok [1%R; 2%R]) "AQID" "short" default_tolerance =
  Raise (ValueError
    "Voice verification failed: shapes (200,) and (2,) not aligned: 200 (dim 0) != 2 (dim 0)").
Proof.
  destruct extract_AQID as (v & Hv).
  apply (verify_rejects_other_lengths plain_cipher (fun _ => Ok [1%R; 2%R])
           "AQID" "short" "short" v [1%R; 2%R] default_tolerance Hv eq_refl eq_refl).
  discriminate.
Defined.

(** ** The voice-activity check on long samples *)

Lemma energy_is_integer (bytes : list Z) :
  sum_squares (Np.astype_float bytes) = IZR (byte_energy bytes).
Proof.
  unfold sum_squares, Np.astype_float, byte_energy, Np.sum.
  induction bytes as [| b r IH]; simpl; [reflexivity |].
  rewrite IH, plus_IZR, mult_IZR. reflexivity.
Qed.

Lemma byte_energy_bounds (bytes : list Z) (lo hi : Z) :
  (0 <= lo)%Z ->
  Forall (fun b => lo <= b <= hi)%Z bytes ->
  (lo * lo * Z.of_nat (length bytes) <= byte_energy bytes
   <= hi * hi * Z.of_nat (length bytes))%Z.
Proof.
  intros Hlo H. induction H as [| b r Hb Hr IH].
  - simpl. lia.
  - change (byte_energy (b :: r)) with (b * b + byte_energy r)%Z.
    change (length (b :: r)) with (S (length r)). rewrite Nat2Z.inj_succ.
    nia.
Qed.

Lemma gtb_IZR (a b : Z) : Float.gtb (IZR a) (IZR b) = (b <? a)%Z.
Proof.
  unfold Float.gtb. destruct (Rgt_dec (IZR a) (IZR b)) as [H | H];
    destruct (Z.ltb_spec b a) as [L | L]; try reflexivity.
  - apply Rgt_lt, lt_IZR in H. lia.
  - exfalso. apply H. apply Rlt_gt, IZR_lt. exact L.
Qed.

(** On a buffer of 1000 bytes or more the energy is an integer, the sum of
    the squared bytes, and voice is detected exactly when that integer
    exceeds 1,000,000; the energy lies between 0 and 65,025 times the number
    of bytes. *)
Theorem detect_decides_on_integer_energy (s : string) (bytes : list Z) :
  decode_audio s = Ok bytes ->
  (1000 <= length bytes)%nat ->
  detect_voice_in_audio s =
    Ok {| voice_detected := (1000000 <? byte_energy bytes)%Z;
          energy := Some (IZR (byte_energy bytes));
          message := if (1000000 <? byte_energy bytes)%Z then "Voice detected"
                     else "No voice detected or audio too quiet" |} /\
  (0 <= byte_energy bytes <= 65025 * Z.of_nat (length bytes))%Z.
Proof.
  intros Hd Hlen. split.
  - pose proof (detect_long_sample s bytes Hd Hlen) as H. cbv zeta in H.
    rewrite H, energy_is_integer. unfold energy_threshold.
    rewrite gtb_IZR. reflexivity.
  - pose proof (decode_audio_uint8 _ _ Hd) as Hu.
    assert (Hr : Forall (fun b => 0 <= b <= 255)%Z bytes).
    { eapply Forall_impl; [| exact Hu]. unfold is_uint8. intros; lia. }
    pose proof (byte_energy_bounds bytes 0 255 ltac:(lia) Hr). lia.
Qed.

Lemma all_repeat {A : Type} (P : A -> Prop) (x : A) (n : nat) :
  P x -> Forall P (repeat x n).
Proof. intros H. induction n; simpl; constructor; assumption. Qed.

Lemma decode_loud_sample :
  decode_audio (str_repeat "////" 334) = Ok (repeat 255%Z 1002).
Proof. vm_compute. reflexivity. Qed.

Lemma decode_silent_sample :
  decode_audio (str_repeat "AAAA" 334) = Ok (repeat 0%Z 1002).
Proof. vm_compute. reflexivity. Qed.

Lemma detect_decides_on_integer_energy_witness :
  detect_voice_in_audio (str_repeat "////" 334) =
  Ok {| voice_detected := true;
        energy := Some 65155050%R;
        message := "Voice detected" |}.
Proof.
  destruct (detect_decides_on_integer_energy (str_repeat "////" 334)
              (repeat 255%Z 1002) decode_loud_sample) as (H & _).
  - rewrite repeat_length. lia.
  - exact H.
Defined.

(** A sample of 1000 bytes or more whose bytes are all 32 or more is
    reported as voice, and one whose bytes are all 0 is not, with energy
    0. *)
Theorem loud_detected_silent_not (s : string) (bytes : list Z) :
  decode_audio s = Ok bytes ->
  (1000 <= length bytes)%nat ->
  (Forall (fun b => 32 <= b)%Z bytes ->
   exists e, detect_voice_in_audio s =
             Ok {| voice_detected := true; energy := Some e;
                   message := "Voice detected" |}) /\
  (Forall (fun b => b = 0)%Z bytes ->
   detect_voice_in_audio s =
   Ok {| voice_detected := false; energy := Some 0%R;
         message := "No voice detected or audio too quiet" |}).
Proof.
  intros Hd Hlen.
  pose proof (detect_long_sample s bytes Hd Hlen) as H. cbv zeta in H.
  rewrite energy_is_integer in H. unfold energy_threshold in H.
  rewrite gtb_IZR in H.
  pose proof (decode_audio_uint8 _ _ Hd) as Hu.
  split.
  - intros Hloud.
    assert (Hr : Forall (fun b => 32 <= b <= 255)%Z bytes).
    { rewrite Forall_forall in *. intros b Hb.
      specialize (Hu b Hb). specialize (Hloud b Hb). unfold is_uint8 in Hu. lia. }
    pose proof (byte_energy_bounds bytes 32 255 ltac:(lia) Hr) as Hb.
    assert (E : (1000000 <? byte_energy bytes)%Z = true) by (apply Z.ltb_lt; lia).
    rewrite E in H. eexists. exact H.
  - intros Hzero.
    assert (Hr : Forall (fun b => 0 <= b <= 0)%Z bytes).
    { eapply Forall_impl; [| exact Hzero]. cbv beta. intros; lia. }
    pose proof (byte_energy_bounds bytes 0 0 ltac:(lia) Hr) as Hb.
    assert (E0 : byte_energy bytes = 0%Z) by lia.
    rewrite E0 in H. exact H.
Qed.

Lemma loud_detected_silent_not_witness :
  detect_voice_in_audio (str_repeat "AAAA" 334) =
  Ok {| voice_detected := false; energy := Some 0%R;
        message := "No voice detected or audio too quiet" |}.
Proof.
  destruct (loud_detected_silent_not (str_repeat "AAAA" 334)
              (repeat 0%Z 1002) decode_silent_sample) as (_ & H).
  - rewrite repeat_length. lia.
  - apply H. apply all_repeat. reflexivity.
Defined.

Lemma detect_energy_inv (s : string) (r : detect_result) (e : R) :
  detect_voice_in_audio s = Ok r ->
  energy r = Some e ->
  exists bytes, decode_audio s = Ok bytes /\
                (1000 <= length bytes)%nat /\
                e = IZR (byte_energy bytes).
Proof.
  unfold detect_voice_in_audio. rewrite detect_body_decode.
  destruct (decode_audio s) as [bytes | x] eqn:Hd;
    cbv beta iota delta [bind try_except].
  - destruct (Nat.ltb_spec (length bytes) 1000) as [Hshort | Hlong].
    + intros H. injection H as <-. discriminate.
    + cbv zeta. fold (sum_squares (Np.astype_float bytes)).
      rewrite energy_is_integer.
      intros H. injection H as <-. cbn [energy].
      intros He. injection He as <-. exists bytes. auto.
  - intros H. injection H as <-. discriminate.
Qed.

Lemma detect_loud_sample :
  detect_voice_in_audio (str_repeat "////" 334) =
  Ok {| voice_detected := true;
        energy := Some 65155050%R;
        message := "Voice detected" |}.
Proof.
  assert (Hlen : (1000 <= length (repeat 255%Z 1002))%nat)
    by (rewrite repeat_length; lia).
  pose proof (detect_long_sample _ _ decode_loud_sample Hlen) as H.
  cbv zeta in H. rewrite energy_is_integer in H.
  unfold energy_threshold in H. rewrite gtb_IZR in H. exact H.
Qed.

(** The fields of the record agree, on every input: voice is reported
    exactly with the message "Voice detected", only together with an energy
    above the threshold, and an energy is present only for a buffer of 1000
    bytes or more. *)
Theorem detect_record_is_coherent (s : string) (r : detect_result) :
  detect_voice_in_audio s = Ok r ->
  (voice_detected r = true <-> message r = "Voice detected"%string) /\
  (voice_detected r = true ->
   exists e, energy r = Some e /\ (e > 1000000)%R) /\
  (forall e, energy r = Some e ->
     exists bytes, decode_audio s = Ok bytes /\
                   (1000 <= length bytes)%nat /\
                   e = IZR (byte_energy bytes)).
Proof.
  intros Hr. split; [| split; [| intros e He; apply (detect_energy_inv _ _ _ Hr He)]];
    revert Hr; unfold detect_voice_in_audio; rewrite detect_body_decode;
    (destruct (decode_audio s) as [bytes | x] eqn:Hd;
     cbv beta iota delta [bind try_except];
     [destruct (Nat.ltb_spec (length bytes) 1000) as [Hshort | Hlong] |]);
    intros H; injection H as <-; cbn [voice_detected message energy];
    try (split; discriminate); try discriminate.
  - destruct (Float.gtb _ energy_threshold); split; intros; try reflexivity;
      discriminate.
  - destruct (Float.gtb _ energy_threshold) eqn:G; [| discriminate].
    intros _. eexists. split; [reflexivity |].
    unfold Float.gtb, energy_threshold in G.
    match type of G with
    | (if ?d then _ else _) = _ => destruct d; [assumption | discriminate G]
    end.
Qed.

Lemma detect_record_is_coherent_witness :
  exists r, detect_voice_in_audio (str_repeat "////" 334) = Ok r /\
            voice_detected r = true /\
            message r = "Voice detected"%string.
Proof.
  eexists. split; [apply detect_loud_sample |].
  split; [reflexivity |].
  apply (detect_record_is_coherent _ _ detect_loud_sample).
  reflexivity.
Defined.

(** A sample long enough for the voice-activity check to compute an energy
    is always extractable, and its feature vector holds the 50 FFT
    magnitudes. *)
Theorem energy_reported_implies_extractable (s : string) (r : detect_result) (e : R) :
  detect_voice_in_audio s = Ok r ->
  energy r = Some e ->
  exists bytes v,
    decode_audio s = Ok bytes /\
    extract_audio_features s = Ok v /\
    length v = 200%nat /\
    length (fft_features bytes) = 50%nat.
Proof.
  intros Hr He.
  destruct (detect_energy_inv _ _ _ Hr He) as (bytes & Hd & Hlen & _).
  destruct bytes as [| x rest]; [simpl in Hlen; lia |].
  destruct (extract_nonempty _ _ _ Hd) as (f & _ & Hv).
  exists (x :: rest), (pad_or_truncate f).
  repeat split; try assumption.
  - apply pad_or_truncate_length.
  - apply fft_features_long. lia.
Qed.

Lemma energy_reported_implies_extractable_witness :
  exists bytes v,
    decode_audio (str_repeat "////" 334) = Ok bytes /\
    extract_audio_features (str_repeat "////" 334) = Ok v /\
    length v = 200%nat /\
    length (fft_features bytes) = 50%nat.
Proof.
  apply (energy_reported_implies_extractable _ _ 65155050%R detect_loud_sample).
  reflexivity.
Defined.

(** ** The histogram counts every byte once *)

Lemma sum_of_counts (l : list nat) :
  Np.sum (map Float.of_nat l) = Float.of_nat (list_sum l).
Proof.
  unfold Np.sum, Float.of_nat. induction l as [| c l IH]; simpl; [reflexivity |].
  rewrite IH, <- plus_IZR. f_equal. lia.
Qed.

Lemma histogram_features_all (a : list Z) :
  histogram_features a = map Float.of_nat (Np.histogram a 50).
Proof.
  unfold histogram_features. apply firstn_all2.
  rewrite length_map, histogram_length. lia.
Qed.

Lemma middle_slice {A : Type} (s h t : list A) :
  length s = 5%nat -> length h = 50%nat ->
  firstn 50 (skipn 5 (s ++ h ++ t)) = h.
Proof.
  intros Hs Hh.
  destruct s as [| a1 [| a2 [| a3 [| a4 [| a5 [| a6 s']]]]]]; try discriminate Hs.
  change (skipn 5 ([a1; a2; a3; a4; a5] ++ h ++ t)) with (h ++ t).
  rewrite firstn_app, Hh, Nat.sub_diag.
  rewrite firstn_all2 by lia.
  cbn [firstn]. apply app_nil_r.
Qed.

(** Entries 5 to 54 of a returned vector are the histogram, and they add up
    to the number of bytes of the buffer: every byte falls in exactly one
    of the 50 bins. *)
Theorem histogram_counts_every_byte (s : string) (bytes : list Z) (v : list R) :
  decode_audio s = Ok bytes ->
  extract_audio_features s = Ok v ->
  firstn 50 (skipn 5 v) = histogram_features bytes /\
  Np.sum (firstn 50 (skipn 5 v)) = Float.of_nat (length bytes).
Proof.
  intros Hd Hv.
  destruct (extract_ok_inv _ _ Hv) as (bytes' & f & Hd' & Hne & Hf & ->).
  rewrite Hd in Hd'. injection Hd' as <-.
  destruct bytes as [| x r]; [contradiction |].
  rewrite (pad_short _ (raw_features_short _ _ Hf)).
  rewrite raw_features_cons in Hf. injection Hf as <-.
  rewrite <- !app_comm_cons, <- app_assoc.
  match goal with
  | |- context [firstn 50 (skipn 5 (?a1 :: ?a2 :: ?a3 :: ?a4 :: ?a5 :: ?h ++ ?t))] =>
      change (firstn 50 (skipn 5 (a1 :: a2 :: a3 :: a4 :: a5 :: h ++ t)))
        with (firstn 50 (skipn 5 ([a1; a2; a3; a4; a5] ++ h ++ t)));
      rewrite (middle_slice [a1; a2; a3; a4; a5] h t eq_refl
                 (histogram_features_length _))
  end.
  split; [reflexivity |].
  rewrite histogram_features_all, sum_of_counts.
  rewrite (histogram_total x r (decode_audio_uint8 _ _ Hd)). reflexivity.
Qed.

Lemma histogram_counts_every_byte_witness :
  exists v, extract_audio_features "AQID" = Ok v /\
            Np.sum (firstn 50 (skipn 5 v)) = 3%R.
Proof.
  destruct extract_AQID as (v & Hv). exists v. split; [exact Hv |].
  destruct (histogram_counts_every_byte "AQID" [1; 2; 3]%Z v eq_refl Hv)
    as (_ & H).
  exact H.
Defined.

(** ** The five statistics *)

Lemma div_bounds (lo hi s n : R) :
  (0 < n)%R -> (lo * n <= s)%R -> (s <= hi * n)%R ->
  (lo <= s / n <= hi)%R.
Proof.
  intros Hn Hlo Hhi.
  assert (E : (s / n * n = s)%R) by (field; lra).
  split; apply Rmult_le_reg_r with n; try exact Hn; rewrite E; assumption.
Qed.

Lemma of_nat_succ (n : nat) : Float.of_nat (S n) = (Float.of_nat n + 1)%R.
Proof. unfold Float.of_nat. rewrite Nat2Z.inj_succ, succ_IZR. reflexivity. Qed.

Lemma of_nat_nonneg (n : nat) : (0 <= Float.of_nat n)%R.
Proof. unfold Float.of_nat. apply IZR_le. lia. Qed.

Lemma of_nat_length_pos {A : Type} (a : list A) :
  a <> [] -> (0 < Float.of_nat (length a))%R.
Proof.
  intros Hne. destruct a as [| x r]; [contradiction |].
  cbn [length]. rewrite of_nat_succ. pose proof (of_nat_nonneg (length r)). lra.
Qed.

Lemma sum_terms_bounds (f : Z -> R) (lo hi : R) (a : list Z) :
  (forall b, In b a -> (lo <= f b <= hi)%R) ->
  (lo * Float.of_nat (length a) <= Np.sum (map f a)
   <= hi * Float.of_nat (length a))%R.
Proof.
  induction a as [| b r IH]; intros H.
  - unfold Float.of_nat. simpl. lra.
  - cbn [map length]. rewrite of_nat_succ.
    change (Np.sum (f b :: map f r)) with (f b + Np.sum (map f r))%R.
    pose proof (H b (or_introl eq_refl)).
    assert (Hr : forall b', In b' r -> (lo <= f b' <= hi)%R)
      by (intros b' Hb'; apply H; right; exact Hb').
    specialize (IH Hr). lra.
Qed.

Lemma mean_bounds (a : list Z) (lo hi : Z) :
  a <> [] ->
  (forall b, In b a -> (lo <= b <= hi)%Z) ->
  (IZR lo <= Np.mean a <= IZR hi)%R.
Proof.
  intros Hne H. unfold Np.mean, Np.astype_float.
  assert (Hb : forall b, In b a -> (IZR lo <= IZR b <= IZR hi)%R).
  { intros b Hb. destruct (H b Hb). split; apply IZR_le; assumption. }
  destruct (sum_terms_bounds IZR (IZR lo) (IZR hi) a Hb) as [S1 S2].
  apply div_bounds; [apply of_nat_length_pos; exact Hne | exact S1 | exact S2].
Qed.

(** The standard deviation is at most the spread of the values. *)
Lemma std_bounds (a : list Z) (lo hi : Z) :
  a <> [] ->
  (forall b, In b a -> (lo <= b <= hi)%Z) ->
  (0 <= Np.std a <= IZR hi - IZR lo)%R.
Proof.
  intros Hne H. split; [apply sqrt_pos |].
  pose proof (mean_bounds a lo hi Hne H) as Hm.
  unfold Np.std. generalize dependent (Np.mean a). intros m Hm.
  assert (Hspread : (0 <= IZR hi - IZR lo)%R) by lra.
  rewrite <- (sqrt_square (IZR hi - IZR lo) Hspread).
  apply sqrt_le_1_alt.
  pose proof (of_nat_length_pos a Hne) as Hn.
  assert (Hb : forall b, In b a ->
                 (0 <= (IZR b - m) * (IZR b - m)
                  <= (IZR hi - IZR lo) * (IZR hi - IZR lo))%R).
  { intros b Hb. destruct (H b Hb) as [H1 H2].
    apply IZR_le in H1. apply IZR_le in H2.
    assert (Hprod : (0 <= (IZR hi - IZR lo - (IZR b - m))
                         * (IZR hi - IZR lo + (IZR b - m)))%R)
      by (apply Rmult_le_pos; lra).
    pose proof (Rle_0_sqr (IZR b - m)) as Hsq. unfold Rsqr in Hsq.
    split; [exact Hsq | nra]. }
  destruct (sum_terms_bounds (fun x => ((IZR x - m) * (IZR x - m))%R) _ _ a Hb)
    as [S1 S2].
  apply (div_bounds 0 ((IZR hi - IZR lo) * (IZR hi - IZR lo)) _ _ Hn S1 S2).
Qed.

Lemma insert_In (x y : Z) (l : list Z) :
  In y (Np.insert x l) <-> y = x \/ In y l.
Proof.
  induction l as [| z r IH]; simpl.
  - intuition.
  - destruct (x <=? z)%Z; simpl; rewrite ?IH; intuition.
Qed.

Lemma sort_In (y : Z) (a : list Z) : In y (Np.sort a) <-> In y a.
Proof.
  unfold Np.sort. induction a as [| x r IH]; simpl; [reflexivity |].
  rewrite insert_In, IH. intuition.
Qed.

Lemma insert_length (x : Z) (l : list Z) : length (Np.insert x l) = S (length l).
Proof.
  induction l as [| z r IH]; simpl; [reflexivity |].
  destruct (x <=? z)%Z; simpl; [reflexivity | rewrite IH; reflexivity].
Qed.

Lemma sort_length (a : list Z) : length (Np.sort a) = length a.
Proof.
  unfold Np.sort. induction a as [| x r IH]; simpl; [reflexivity |].
  rewrite insert_length, IH. reflexivity.
Qed.

Lemma sorted_nth_bounds (a : list Z) (lo hi : Z) (k : nat) :
  (forall b, In b a -> (lo <= b <= hi)%Z) ->
  (k < length a)%nat ->
  (lo <= nth k (Np.sort a) 0 <= hi)%Z.
Proof.
  intros H Hk. apply H. apply sort_In. apply nth_In.
  rewrite sort_length. exact Hk.
Qed.

Lemma median_bounds (a : list Z) (lo hi : Z) :
  a <> [] ->
  (forall b, In b a -> (lo <= b <= hi)%Z) ->
  (IZR lo <= Np.median a <= IZR hi)%R.
Proof.
  intros Hne H. unfold Np.median.
  assert (Hpos : (0 < length a)%nat) by (destruct a; [contradiction | simpl; lia]).
  assert (Hhalf : (length a / 2 < length a)%nat) by (apply Nat.div_lt; lia).
  pose proof (sorted_nth_bounds a lo hi (length a / 2) H Hhalf) as [M1 M2].
  apply IZR_le in M1. apply IZR_le in M2.
  destruct (Nat.even (length a)).
  - assert (Hprev : (length a / 2 - 1 < length a)%nat) by lia.
    pose proof (sorted_nth_bounds a lo hi _ H Hprev) as [P1 P2].
    apply IZR_le in P1. apply IZR_le in P2. lra.
  - lra.
Qed.

(** What holds of the statistics of a non-empty buffer of bytes. *)
Lemma statistics_bounds (x : Z) (r : list Z) :
  Forall is_uint8 (x :: r) ->
  let mx := fold_left Z.max r x in
  let mn := fold_left Z.min r x in
  In mx (x :: r) /\ In mn (x :: r) /\
  (forall b, In b (x :: r) -> (mn <= b <= mx)%Z) /\
  (0 <= mn)%Z /\ (mx <= 255)%Z /\
  (IZR mn <= Np.mean (x :: r) <= IZR mx)%R /\
  (IZR mn <= Np.median (x :: r) <= IZR mx)%R /\
  (0 <= Np.std (x :: r) <= IZR mx - IZR mn)%R.
Proof.
  intros Hu mx mn. rewrite Forall_forall in Hu.
  pose proof (fold_max_In r x) as Hmx. pose proof (fold_min_In r x) as Hmn.
  assert (Hall : forall b, In b (x :: r) -> (mn <= b <= mx)%Z).
  { intros b Hb. split; [apply fold_min_le_all | apply fold_max_ge_all]; exact Hb. }
  split; [exact Hmx |]. split; [exact Hmn |]. split; [exact Hall |].
  split; [apply (Hu _ Hmn) |].
  split; [pose proof (Hu _ Hmx) as Hb; unfold is_uint8 in Hb; lia |].
  split; [apply mean_bounds; [discriminate | exact Hall] |].
  split; [apply median_bounds; [discriminate | exact Hall] |].
  apply std_bounds; [discriminate | exact Hall].
Qed.

(** The first five entries of a returned vector are the mean, the standard
    deviation, the maximum, the minimum and the median of the bytes; the
    maximum and the minimum are bytes of the buffer, and
    [0 <= min <= mean <= max <= 255], [min <= median <= max] and
    [0 <= std <= max - min]. *)
Theorem statistics_are_ordered (s : string) (bytes : list Z) (v : list R) :
  decode_audio s = Ok bytes ->
  extract_audio_features s = Ok v ->
  exists mx mn : Z,
    firstn 5 v = [Np.mean bytes; Np.std bytes; IZR mx; IZR mn; Np.median bytes] /\
    In mx bytes /\ In mn bytes /\
    (forall b, In b bytes -> (mn <= b <= mx)%Z) /\
    (0 <= mn)%Z /\ (mx <= 255)%Z /\
    (IZR mn <= Np.mean bytes <= IZR mx)%R /\
    (IZR mn <= Np.median bytes <= IZR mx)%R /\
    (0 <= Np.std bytes <= IZR mx - IZR mn)%R.
Proof.
  intros Hd Hv.
  destruct (extract_ok_inv _ _ Hv) as (bytes' & f & Hd' & Hne & Hf & ->).
  rewrite Hd in Hd'. injection Hd' as <-.
  pose proof (decode_audio_uint8 _ _ Hd) as Hu.
  destruct bytes as [| x r]; [contradiction |].
  rewrite (pad_short _ (raw_features_short _ _ Hf)).
  rewrite raw_features_cons in Hf. injection Hf as <-.
  exists (fold_left Z.max r x), (fold_left Z.min r x).
  split; [reflexivity |]. apply (statistics_bounds x r Hu).
Qed.

Lemma statistics_are_ordered_witness :
  exists (v : list R) (mx mn : Z),
    extract_audio_features "AQID" = Ok v /\
    nth_error v 2 = Some (IZR mx) /\ nth_error v 3 = Some (IZR mn) /\
    (0 <= mn <= mx)%Z /\ (mx <= 255)%Z.
Proof.
  destruct extract_AQID as (v & Hv). exists v.
  destruct (statistics_are_ordered "AQID" [1; 2; 3]%Z v eq_refl Hv)
    as (mx & mn & Hfirst & Hmx & _ & Hall & Hlo & Hhi & _).
  exists mx, mn. split; [exact Hv |].
  destruct v as [| a [| b [| c [| d [| e v']]]]]; try discriminate Hfirst.
  cbn [firstn] in Hfirst. injection Hfirst as _ _ Hc Hd _.
  cbn [nth_error]. rewrite Hc, Hd.
  split; [reflexivity |]. split; [reflexivity |].
  specialize (Hall mx Hmx). lia.
Defined.

(** ** The first FFT magnitude and the sign of the features *)

Lemma sum_over_indexed (g : nat -> R -> R) (h : R -> R) (x : list R) (start : nat) :
  (forall m xm, g m xm = h xm) ->
  Np.sum (map (fun '(m, xm) => g m xm) (combine (seq start (length x)) x))
  = Np.sum (map h x).
Proof.
  intros Hg. revert start. induction x as [| a r IH]; intros start.
  - reflexivity.
  - cbn [length seq combine map]. unfold Np.sum in *. cbn [fold_right].
    rewrite IH, Hg. reflexivity.
Qed.

Lemma sum_of_zeros (x : list R) : Np.sum (map (fun _ => 0%R) x) = 0%R.
Proof.
  unfold Np.sum. induction x as [| a r IH]; simpl; [reflexivity |].
  rewrite IH. lra.
Qed.

Lemma sum_map_id (x : list R) : Np.sum (map (fun xm => xm) x) = Np.sum x.
Proof. rewrite map_id. reflexivity. Qed.

(** The coefficient of frequency 0 is the plain sum of the samples. *)
Lemma fft_coeff_dc (x : list R) : Np.fft_coeff x 0 = (Np.sum x, (- 0)%R).
Proof.
  unfold Np.fft_coeff.
  assert (Hangle : forall m : nat,
             (2 * PI * Float.of_nat m * Float.of_nat 0
              / Float.of_nat (length x))%R = 0%R).
  { intros m. unfold Float.of_nat. cbn [Z.of_nat]. unfold Rdiv.
    rewrite Rmult_0_r, Rmult_0_l. reflexivity. }
  f_equal.
  - transitivity (Np.sum (map (fun xm => xm) x)); [| apply sum_map_id].
    apply (sum_over_indexed
             (fun m xm => (xm * cos (2 * PI * Float.of_nat m * Float.of_nat 0
                                     / Float.of_nat (length x)))%R)).
    intros m xm. rewrite Hangle, cos_0. lra.
  - f_equal. transitivity (Np.sum (map (fun _ => 0%R) x)); [| apply sum_of_zeros].
    apply (sum_over_indexed
             (fun m xm => (xm * sin (2 * PI * Float.of_nat m * Float.of_nat 0
                                     / Float.of_nat (length x)))%R)).
    intros m xm. rewrite Hangle, sin_0. lra.
Qed.

Lemma abs_dc (x : list R) :
  (0 <= Np.sum x)%R -> Np.abs (Np.fft_coeff x 0) = Np.sum x.
Proof.
  intros H. rewrite fft_coeff_dc. unfold Np.abs. cbn [fst snd].
  replace (Np.sum x * Np.sum x + - 0 * - 0)%R with (Np.sum x * Np.sum x)%R by lra.
  apply sqrt_square. exact H.
Qed.

Lemma sum_nonneg (x : list R) :
  Forall (fun y => 0 <= y)%R x -> (0 <= Np.sum x)%R.
Proof.
  unfold Np.sum. induction 1 as [| y r Hy Hr IH]; simpl; lra.
Qed.

Lemma astype_float_nonneg (a : list Z) :
  Forall is_uint8 a -> Forall (fun y => 0 <= y)%R (Np.astype_float a).
Proof.
  unfold Np.astype_float. induction 1 as [| b r Hb Hr IH]; simpl; constructor.
  - apply IZR_le. unfold is_uint8 in Hb. lia.
  - exact IH.
Qed.

Lemma all_firstn {A : Type} (P : A -> Prop) (n : nat) (l : list A) :
  Forall P l -> Forall P (firstn n l).
Proof.
  intros H. revert n. induction H as [| x r Hx Hr IH]; intros [| n]; simpl;
    constructor; auto.
Qed.

Lemma fft_features_head (a : list Z) :
  (512 < length a)%nat ->
  exists rest,
    fft_features a =
    Np.abs (Np.fft_coeff (Np.astype_float (firstn 512 a)) 0) :: rest.
Proof.
  intros Hlong. unfold fft_features.
  destruct (Nat.ltb_spec 512 (length a)); [| lia].
  unfold Np.fft.
  assert (Hlen : length (Np.astype_float (firstn 512 a)) = S 511).
  { unfold Np.astype_float. rewrite length_map, length_firstn. lia. }
  rewrite Hlen, <- cons_seq.
  change (map ?f (0%nat :: ?l)) with (f 0%nat :: map f l).
  eexists. reflexivity.
Qed.

Lemma raw_features_parts (x : Z) (r : list Z) (f : list R) :
  raw_features (x :: r) = Ok f ->
  exists stats,
    length stats = 5%nat /\
    f = stats ++ histogram_features (x :: r) ++ fft_features (x :: r).
Proof.
  rewrite raw_features_cons. intros H. injection H as <-.
  exists [Np.mean (x :: r); Np.std (x :: r); IZR (fold_left Z.max r x);
          IZR (fold_left Z.min r x); Np.median (x :: r)].
  split; reflexivity.
Qed.

(** For a buffer of more than 512 bytes, entry 55 of the returned vector
    (the first FFT magnitude) is the sum of the first 512 bytes. *)
Theorem first_fft_magnitude_is_the_sum (s : string) (bytes : list Z) (v : list R) :
  decode_audio s = Ok bytes ->
  (512 < length bytes)%nat ->
  extract_audio_features s = Ok v ->
  nth_error v 55 = Some (Np.sum (Np.astype_float (firstn 512 bytes))).
Proof.
  intros Hd Hlong Hv.
  destruct (extract_ok_inv _ _ Hv) as (bytes' & f & Hd' & Hne & Hf & ->).
  rewrite Hd in Hd'. injection Hd' as <-.
  pose proof (decode_audio_uint8 _ _ Hd) as Hu.
  pose proof (raw_features_length _ _ Hf) as Hl.
  rewrite (fft_features_long _ Hlong) in Hl.
  destruct bytes as [| x r]; [contradiction |].
  rewrite (pad_short _ (raw_features_short _ _ Hf)).
  rewrite nth_error_app1 by lia.
  destruct (raw_features_parts _ _ _ Hf) as (stats & Hstats & ->).
  destruct (fft_features_head (x :: r) Hlong) as (rest & ->).
  rewrite nth_error_app2 by lia.
  rewrite nth_error_app2 by (rewrite histogram_features_length; lia).
  rewrite Hstats, histogram_features_length.
  change (55 - 5 - 50)%nat with 0%nat. cbn [nth_error].
  f_equal. apply abs_dc. apply sum_nonneg, astype_float_nonneg.
  apply all_firstn. exact Hu.
Qed.

Lemma decode_600_bytes :
  decode_audio (str_repeat "AQID" 200) =
  Ok (concat (repeat [1; 2; 3]%Z 200)).
Proof. vm_compute. reflexivity. Qed.

Lemma first_fft_magnitude_is_the_sum_witness :
  exists v, extract_audio_features (str_repeat "AQID" 200) = Ok v /\
            nth_error v 55 =
            Some (Np.sum (Np.astype_float
                            (firstn 512 (concat (repeat [1; 2; 3]%Z 200))))).
Proof.
  destruct (extract_nonempty (str_repeat "AQID" 200) 1%Z
              ([2; 3]%Z ++ concat (repeat [1; 2; 3]%Z 199)) decode_600_bytes)
    as (f & _ & Hv).
  exists (pad_or_truncate f). split; [exact Hv |].
  apply (first_fft_magnitude_is_the_sum _ _ _ decode_600_bytes); [| exact Hv].
  vm_compute. lia.
Defined.

Lemma raw_features_nonneg (bytes : list Z) (f : list R) :
  Forall is_uint8 bytes ->
  raw_features bytes = Ok f ->
  Forall (fun y => 0 <= y)%R f.
Proof.
  intros Hu Hf. destruct bytes as [| x r]; [discriminate Hf |].
  rewrite raw_features_cons in Hf. injection Hf as <-.
  destruct (statistics_bounds x r Hu)
    as (_ & _ & _ & Hmn & Hmx & Hmean & Hmed & Hstd).
  assert (H0 : (0 <= IZR (fold_left Z.min r x))%R) by (apply IZR_le; exact Hmn).
  repeat (constructor; [lra |]).
  apply Forall_app. split.
  - unfold histogram_features. apply all_firstn.
    apply Forall_forall. intros y Hy. apply in_map_iff in Hy.
    destruct Hy as (c & <- & _). apply of_nat_nonneg.
  - unfold fft_features. destruct (512 <? length (x :: r))%nat; [| constructor].
    apply all_firstn. apply Forall_forall. intros y Hy. apply in_map_iff in Hy.
    destruct Hy as (c & <- & _). unfold Np.abs. apply sqrt_pos.
Qed.

Lemma padded_nonneg (f : list R) :
  Forall (fun y => 0 <= y)%R f -> Forall (fun y => 0 <= y)%R (pad_or_truncate f).
Proof.
  intros H. unfold pad_or_truncate.
  destruct (length f <? target_size)%nat.
  - apply Forall_app. split; [exact H | apply all_repeat; lra].
  - apply all_firstn. exact H.
Qed.

(** Every entry of a returned vector is non-negative. *)
Theorem features_are_nonnegative (s : string) (v : list R) :
  extract_audio_features s = Ok v ->
  Forall (fun y => 0 <= y)%R v.
Proof.
  intros Hv.
  destruct (extract_ok_inv _ _ Hv) as (bytes & f & Hd & _ & Hf & ->).
  apply padded_nonneg.
  apply (raw_features_nonneg bytes f); [| exact Hf].
  apply (decode_audio_uint8 _ _ Hd).
Qed.

Lemma features_are_nonnegative_witness :
  exists v, extract_audio_features "AQID" = Ok v /\
            Forall (fun y => 0 <= y)%R v.
Proof.
  destruct extract_AQID as (v & Hv). exists v. split; [exact Hv |].
  apply (features_are_nonnegative "AQID" v Hv).
Defined.

(** ** Verification against an enrolled sample *)

Lemma dot_value_cons (x y : R) (a b : list R) :
  dot_value (x :: a) (y :: b) = (x * y + dot_value a b)%R.
Proof. reflexivity. Qed.

Lemma dot_value_comm (a b : list R) : dot_value a b = dot_value b a.
Proof.
  revert b. induction a as [| x a IH]; intros [| y b]; try reflexivity.
  rewrite !dot_value_cons, IH. lra.
Qed.

Lemma dot_value_nonneg (a b : list R) :
  Forall (fun y => 0 <= y)%R a -> Forall (fun y => 0 <= y)%R b ->
  (0 <= dot_value a b)%R.
Proof.
  intros Ha. revert b. induction Ha as [| x a Hx Ha IH]; intros b Hb.
  - change (dot_value [] b) with 0%R. lra.
  - destruct Hb as [| y b Hy Hb].
    + change (dot_value (x :: a) []) with 0%R. lra.
    + rewrite dot_value_cons. specialize (IH b Hb).
      pose proof (Rmult_le_pos _ _ Hx Hy). lra.
Qed.

Section VerificationProperties.

Variable encrypt_data : string -> result string.
Variable decrypt_data : string -> result string.
Variable json_dumps : list R -> string.
Variable json_loads : string -> result (list R).

(** Verifying a probe against the enrollment of another sample: the call
    returns for every tolerance, and the similarity is not negative (all
    features are non-negative and no norm is zero), so that the lower
    clamp of the confidence is never the one that acts: the confidence is
    the smaller of 100 and the similarity times 100. *)
Theorem verify_against_enrolled_sample
    (probe enrolled c : string) (v : list R) (t : R) :
  (forall p c', encrypt_data p = Ok c' -> decrypt_data c' = Ok p) ->
  (forall w, extract_audio_features enrolled = Ok w ->
             json_loads (json_dumps w) = Ok w) ->
  enroll_voice encrypt_data json_dumps enrolled = Ok c ->
  extract_audio_features probe = Ok v ->
  exists r,
    verify_voice decrypt_data json_loads probe c t = Ok r /\
    (0 <= similarity r)%R /\
    confidence r = Float.py_min 100 (similarity r * 100) /\
    (0 <= confidence r <= 100)%R.
Proof.
  intros Hcrypt Hjson Henroll Hv.
  unfold enroll_voice in Henroll.
  apply try_except_reraise_inv in Henroll. unfold enroll_body in Henroll.
  apply bind_ok in Henroll. destruct Henroll as (w & Hw & H).
  apply bind_ok in H. destruct H as (c' & Hc & H). injection H as ->.
  assert (Hlen : length v = length w)
    by (rewrite (extract_length _ _ Hv), (extract_length _ _ Hw); reflexivity).
  destruct (compare_features_ok v w Hlen) as (sim & Hs & _ & Hd).
  pose proof (norm_pos v (extract_features_nonzero _ _ Hv)) as Nv.
  pose proof (norm_pos w (extract_features_nonzero _ _ Hw)) as Nw.
  assert (Ev : Np.norm v <> 0%R) by lra.
  assert (Ew : Np.norm w <> 0%R) by lra.
  specialize (Hd Ev Ew).
  assert (Hlow : (0 <= sim)%R).
  { rewrite Hd. apply Rmult_le_pos.
    - assert (Hnn : forall s u, extract_audio_features s = Ok u ->
                                Forall (fun y => 0 <= y)%R u).
      { intros s u Hu.
        destruct (extract_ok_inv _ _ Hu) as (bytes & f & Hdec & _ & Hf & ->).
        apply padded_nonneg, (raw_features_nonneg bytes f);
          [apply (decode_audio_uint8 _ _ Hdec) | exact Hf]. }
      apply dot_value_nonneg; eapply Hnn; eassumption.
    - apply Rlt_le, Rinv_0_lt_compat, Rmult_lt_0_compat; assumption. }
  eexists. split.
  - unfold verify_voice.
    rewrite (verify_steps _ _ _ _ _ _ _ t Hv (Hcrypt _ _ Hc) (Hjson _ Hw)), Hs.
    reflexivity.
  - cbn [similarity confidence]. split; [exact Hlow |].
    unfold Float.py_max, Float.py_min, Float.gtb, Float.ltb.
    destruct (Rlt_dec (sim * 100) 100);
      match goal with
      | |- context [Rgt_dec ?x 0] => destruct (Rgt_dec x 0)
      end; split; lra.
Qed.

(** Verification is symmetric in the two samples: the probe [a] against the
    enrollment of [b] returns the record that the probe [b] against the
    enrollment of [a] returns. *)
Theorem similarity_is_symmetric (a b ca cb : string) (t : R) :
  (forall p c', encrypt_data p = Ok c' -> decrypt_data c' = Ok p) ->
  (forall w, extract_audio_features a = Ok w -> json_loads (json_dumps w) = Ok w) ->
  (forall w, extract_audio_features b = Ok w -> json_loads (json_dumps w) = Ok w) ->
  enroll_voice encrypt_data json_dumps a = Ok ca ->
  enroll_voice encrypt_data json_dumps b = Ok cb ->
  exists r,
    verify_voice decrypt_data json_loads a cb t = Ok r /\
    verify_voice decrypt_data json_loads b ca t = Ok r.
Proof.
  intros Hcrypt Hja Hjb Ha Hb.
  unfold enroll_voice in Ha, Hb.
  apply try_except_reraise_inv in Ha. apply try_except_reraise_inv in Hb.
  unfold enroll_body in Ha, Hb.
  apply bind_ok in Ha. destruct Ha as (va & Hva & Ha).
  apply bind_ok in Ha. destruct Ha as (ca' & Hca & Ha). injection Ha as ->.
  apply bind_ok in Hb. destruct Hb as (vb & Hvb & Hb).
  apply bind_ok in Hb. destruct Hb as (cb' & Hcb & Hb). injection Hb as ->.
  unfold verify_voice.
  rewrite (verify_steps _ _ _ _ _ _ _ t Hva (Hcrypt _ _ Hcb) (Hjb _ Hvb)).
  rewrite (verify_steps _ _ _ _ _ _ _ t Hvb (Hcrypt _ _ Hca) (Hja _ Hva)).
  assert (Hlen : length va = length vb)
    by (rewrite (extract_length _ _ Hva), (extract_length _ _ Hvb); reflexivity).
  destruct (compare_features_ok va vb Hlen) as (s1 & Hs1 & _ & Hd1).
  destruct (compare_features_ok vb va (eq_sym Hlen)) as (s2 & Hs2 & _ & Hd2).
  pose proof (norm_pos va (extract_features_nonzero _ _ Hva)) as Na.
  pose proof (norm_pos vb (extract_features_nonzero _ _ Hvb)) as Nb.
  assert (Ea : Np.norm va <> 0%R) by lra.
  assert (Eb : Np.norm vb <> 0%R) by lra.
  assert (E : s1 = s2).
  { rewrite (Hd1 Ea Eb), (Hd2 Eb Ea), (dot_value_comm va vb).
    rewrite (Rmult_comm (Np.norm va)). reflexivity. }
  rewrite Hs1, Hs2, E. eexists. split; reflexivity.
Qed.

End VerificationProperties.

Lemma extract_AAAA : exists v, extract_audio_features "AAAA" = Ok v.
Proof.
  destruct (extract_nonempty "AAAA" 0%Z [0; 0]%Z eq_refl) as (f & _ & Hv).
  eauto.
Qed.

Lemma verify_against_enrolled_sample_witness :
  exists r,
    verify_voice plain_cipher (loads_features_of "AQID") "AAAA" "features"
      default_tolerance = Ok r /\
    (0 <= similarity r)%R /\
    confidence r = Float.py_min 100 (similarity r * 100) /\
    (0 <= confidence r <= 100)%R.
Proof.
  destruct extract_AAAA as (v & Hv).
  apply (verify_against_enrolled_sample plain_cipher plain_cipher dumps_fixed
           (loads_features_of "AQID") "AAAA" "AQID" "features" v).
  - intros p c' H. injection H as <-. reflexivity.
  - intros w Hw. exact Hw.
  - exact enroll_AQID.
  - exact Hv.
Defined.

Lemma similarity_is_symmetric_witness :
  exists r,
    verify_voice plain_cipher loads_two_samples "AAAA" "features" default_tolerance
    = Ok r /\
    verify_voice plain_cipher loads_two_samples "AQID" "silent" default_tolerance
    = Ok r.
Proof.
  destruct extract_AAAA as (va & Hva). destruct extract_AQID as (vb & Hvb).
  destruct (extract_third_feature "AAAA" 0%Z [0; 0]%Z eq_refl) as (va' & Hva' & Ta).
  destruct (extract_third_feature "AQID" 1%Z [2; 3]%Z eq_refl) as (vb' & Hvb' & Tb).
  rewrite Hva in Hva'. injection Hva' as <-.
  rewrite Hvb in Hvb'. injection Hvb' as <-.
  change (fold_left Z.max [0%Z; 0%Z] 0%Z) with 0%Z in Ta.
  change (fold_left Z.max [2%Z; 3%Z] 1%Z) with 3%Z in Tb.
  assert (Da : dumps_two_samples va = "silent"%string).
  { unfold dumps_two_samples. rewrite Ta.
    destruct (Float.eqb (IZR 0) 0) eqn:E; [reflexivity |].
    apply float_eqb_false in E. contradiction E. reflexivity. }
  assert (Db : dumps_two_samples vb = "features"%string).
  { unfold dumps_two_samples. rewrite Tb.
    destruct (Float.eqb (IZR 3) 0) eqn:E; [| reflexivity].
    apply float_eqb_true in E. apply eq_IZR in E. discriminate E. }
  apply (similarity_is_symmetric plain_cipher plain_cipher dumps_two_samples
           loads_two_samples "AAAA" "AQID" "silent" "features").
  - intros p c' H. injection H as <-. reflexivity.
  - intros w Hw. rewrite Hva in Hw. injection Hw as <-.
    rewrite Da. exact Hva.
  - intros w Hw. rewrite Hvb in Hw. injection Hw as <-.
    rewrite Db. exact Hvb.
  - unfold enroll_voice, enroll_body. rewrite Hva. cbn [bind]. rewrite Da. reflexivity.
  - unfold enroll_voice, enroll_body. rewrite Hvb. cbn [bind]. rewrite Db. reflexivity.
Defined.

(** ** What the operations ignore in their input *)

Lemma same_buffer_same_service
    (encrypt_data decrypt_data : string -> result string)
    (json_dumps : list R -> string) (json_loads : string -> result (list R))
    (s1 s2 : string) :
  decode_audio s1 = decode_audio s2 ->
  extract_audio_features s1 = extract_audio_features s2 /\
  detect_voice_in_audio s1 = detect_voice_in_audio s2 /\
  enroll_voice encrypt_data json_dumps s1 = enroll_voice encrypt_data json_dumps s2 /\
  forall stored t,
    verify_voice decrypt_data json_loads s1 stored t =
    verify_voice decrypt_data json_loads s2 stored t.
Proof.
  intros H. destruct (same_buffer_same_results s1 s2 H) as (He & Hd).
  split; [exact He |]. split; [exact Hd |]. split.
  - unfold enroll_voice, enroll_body. rewrite He. reflexivity.
  - intros stored t. unfold verify_voice, verify_body. rewrite He. reflexivity.
Qed.

(** A data-URL prefix without a comma is ignored by the four operations:
    on [prefix + "," + p], with no comma in [p], each behaves as on the bare
    [p]. *)
Theorem prefix_is_ignored_by_all_operations
    (encrypt_data decrypt_data : string -> result string)
    (json_dumps : list R -> string) (json_loads : string -> result (list R))
    (prefix p : string) :
  Str.contains Str.comma prefix = false ->
  Str.contains Str.comma p = false ->
  extract_audio_features (prefix ++ "," ++ p) = extract_audio_features p /\
  detect_voice_in_audio (prefix ++ "," ++ p) = detect_voice_in_audio p /\
  enroll_voice encrypt_data json_dumps (prefix ++ "," ++ p)
  = enroll_voice encrypt_data json_dumps p /\
  forall stored t,
    verify_voice decrypt_data json_loads (prefix ++ "," ++ p) stored t =
    verify_voice decrypt_data json_loads p stored t.
Proof.
  intros Hpre Hp. apply same_buffer_same_service.
  unfold decode_audio.
  rewrite (strip_prefixed _ _ Hpre Hp), (strip_no_comma _ Hp). reflexivity.
Qed.

Lemma prefix_is_ignored_by_all_operations_witness :
  detect_voice_in_audio "data:audio/webm;codecs=opus;base64,AQID"
  = detect_voice_in_audio "AQID" /\
  enroll_voice plain_cipher dumps_fixed "data:audio/webm;codecs=opus;base64,AQID"
  = enroll_voice plain_cipher dumps_fixed "AQID".
Proof.
  destruct (prefix_is_ignored_by_all_operations plain_cipher plain_cipher
              dumps_fixed loads_zeros "data:audio/webm;codecs=opus;base64" "AQID"
              eq_refl eq_refl)
    as (_ & Hdetect & Henroll & _).
  split; [exact Hdetect | exact Henroll].
Defined.

Lemma loop_app (pre post : string) (st : Base64.state) :
  Base64.loop (pre ++ post) st =
  match Base64.loop pre st with
  | Base64.Done out => Base64.Done out
  | Base64.Fallthrough st' => Base64.loop post st'
  end.
Proof.
  revert st. induction pre as [| c rest IH]; intros st.
  - reflexivity.
  - cbn [append Base64.loop].
    destruct (Ascii.eqb c Base64.BASE64_PAD).
    + destruct (2 <=? Base64.quad_pos st)%Z; [| apply IH].
      destruct (4 <=? Base64.quad_pos st + (Base64.pads st + 1))%Z;
        [reflexivity | apply IH].
    + destruct (64 <=? Base64.table_a2b_base64 c)%Z; [apply IH |].
      destruct (Base64.quad_pos st =? 0)%Z; [apply IH |].
      destruct (Base64.quad_pos st =? 1)%Z; [apply IH |].
      destruct (Base64.quad_pos st =? 2)%Z; apply IH.
Qed.

Lemma is_ascii_app (pre post : string) :
  Base64.is_ascii (pre ++ post) = Base64.is_ascii pre && Base64.is_ascii post.
Proof.
  induction pre as [| c rest IH]; simpl; [reflexivity |].
  rewrite IH, andb_assoc. reflexivity.
Qed.

Lemma contains_app (sep : ascii) (pre post : string) :
  Str.contains sep (pre ++ post) = Str.contains sep pre || Str.contains sep post.
Proof.
  induction pre as [| c rest IH]; simpl; [reflexivity |].
  rewrite IH, orb_assoc. reflexivity.
Qed.

(** The decoder skips an ASCII character that is neither in the alphabet nor
    the padding character. *)
Lemma b64decode_skips (c : ascii) (pre post : string) :
  (N_of_ascii c <? 128)%N = true ->
  Ascii.eqb c Base64.BASE64_PAD = false ->
  Base64.table_a2b_base64 c = 64%Z ->
  Base64.b64decode (pre ++ String c post) = Base64.b64decode (pre ++ post).
Proof.
  intros Hascii Hpad Htable. unfold Base64.b64decode, Base64.a2b_base64.
  rewrite !is_ascii_app. cbn [Base64.is_ascii]. rewrite Hascii. cbn [andb].
  rewrite !loop_app.
  destruct (Base64.loop pre Base64.init) as [out | st]; [reflexivity |].
  cbn [Base64.loop]. rewrite Hpad, Htable. reflexivity.
Qed.

(** A character that base64 does not use (a line break, a space, ...) and
    that is not a comma can be put anywhere in the payload without changing
    what the extractor and the voice-activity check answer. *)
Theorem stray_characters_are_ignored (c : ascii) (prefix pre post : string) :
  (N_of_ascii c <? 128)%N = true ->
  Ascii.eqb c Base64.BASE64_PAD = false ->
  Ascii.eqb c Str.comma = false ->
  Base64.table_a2b_base64 c = 64%Z ->
  Str.contains Str.comma prefix = false ->
  Str.contains Str.comma pre = false ->
  Str.contains Str.comma post = false ->
  extract_audio_features (prefix ++ "," ++ pre ++ String c post)
  = extract_audio_features (prefix ++ "," ++ pre ++ post) /\
  detect_voice_in_audio (prefix ++ "," ++ pre ++ String c post)
  = detect_voice_in_audio (prefix ++ "," ++ pre ++ post) /\
  extract_audio_features (pre ++ String c post)
  = extract_audio_features (pre ++ post) /\
  detect_voice_in_audio (pre ++ String c post)
  = detect_voice_in_audio (pre ++ post).
Proof.
  intros Hascii Hpad Hcomma Htable Hprefix Hpre Hpost.
  assert (H1 : Str.contains Str.comma (pre ++ String c post) = false).
  { rewrite contains_app. cbn [Str.contains]. rewrite Hpre, Hcomma, Hpost. reflexivity. }
  assert (H2 : Str.contains Str.comma (pre ++ post) = false).
  { rewrite contains_app, Hpre, Hpost. reflexivity. }
  assert (Hbare : decode_audio (pre ++ String c post) = decode_audio (pre ++ post)).
  { unfold decode_audio. rewrite (strip_no_comma _ H1), (strip_no_comma _ H2).
    cbn [bind]. apply b64decode_skips; assumption. }
  assert (Hurl : decode_audio (prefix ++ "," ++ pre ++ String c post)
                 = decode_audio (prefix ++ "," ++ pre ++ post)).
  { unfold decode_audio.
    rewrite (strip_prefixed _ _ Hprefix H1), (strip_prefixed _ _ Hprefix H2).
    cbn [bind]. apply b64decode_skips; assumption. }
  destruct (same_buffer_same_results _ _ Hbare) as (E1 & D1).
  destruct (same_buffer_same_results _ _ Hurl) as (E2 & D2).
  repeat split; assumption.
Qed.

Lemma stray_characters_are_ignored_witness :
  extract_audio_features ("data:audio/wav;base64" ++ "," ++ "AQ" ++ String "010" "ID")
  = extract_audio_features ("data:audio/wav;base64" ++ "," ++ "AQ" ++ "ID").
Proof.
  destruct (stray_characters_are_ignored "010" "data:audio/wav;base64" "AQ" "ID"
              eq_refl eq_refl eq_refl eq_refl eq_refl eq_refl eq_refl)
    as (H & _).
  exact H.
Defined.
